(** * S3 client resolution for Spack mirrors ([lib/spack/spack/util/s3.py])

    A shallow embedding of [get_s3_session], [_parse_s3_endpoint_url] and
    [get_mirror_s3_connection_info], together with the properties of
    mirror selection, credential derivation, endpoint resolution and
    client caching.

    Conventions.
    - A Python [str] is a [string]; every [ascii] stands for one character
      (code points below 256), so [String.length] is Python's [len].
    - A Python [dict] with string keys is a [gmap string _].
    - The module-level [s3_client_cache] is threaded explicitly through
      [get_s3_session]; object identity of clients is an allocation number.
    - What calls into [urllib] and [boto3] compute is either written out
      ([urlsplit_scheme], [urlsplit_raises]) or taken from the [World]
      and the [Library] the call runs in.
    - [_parse_s3_endpoint_url], [get_mirror_s3_connection_info] and
      [get_s3_session] give what a call returns when no exception is
      raised; the functions named [..._call] are the calls with the
      exceptions of [urlparse] and of the SDK, which none of them
      handles. *)

From Stdlib Require Import String Ascii NArith Bool List Lia.
From stdpp Require Import gmap strings list fin_maps.

Local Open Scope string_scope.
#[local] Arguments String.append !_ _ / : simpl nomatch.

(** ** Python string helpers *)

Module PyStr.

Definition ord (c : ascii) : N := N_of_ascii c.

(** [str.isascii] on a one-character string. *)
Definition isascii (c : ascii) : bool := (ord c <? 128)%N.

(** [str.isalpha] restricted to ASCII characters (it is only called
    behind [isascii]). *)
Definition isalpha_ascii (c : ascii) : bool :=
  ((65 <=? ord c) && (ord c <=? 90) || (97 <=? ord c) && (ord c <=? 122))%N.

(** [c in chars] for a character [c]. *)
Definition char_in (c : ascii) (chars : string) : bool :=
  existsb (Ascii.eqb c) (list_ascii_of_string chars).

(** [s.find(c)]: [None] stands for Python's [-1]. *)
Fixpoint find (c : ascii) (s : string) : option nat :=
  match s with
  | EmptyString => None
  | String a s' => if Ascii.eqb a c then Some 0 else option_map S (find c s')
  end.

(** [s.lstrip(chars)] with the character set given as a predicate. *)
Fixpoint lstrip (p : ascii -> bool) (s : string) : string :=
  match s with
  | EmptyString => EmptyString
  | String a s' => if p a then lstrip p s' else s
  end.

Fixpoint rstrip (p : ascii -> bool) (s : string) : string :=
  match s with
  | EmptyString => EmptyString
  | String a s' =>
      match rstrip p s' with
      | EmptyString => if p a then EmptyString else String a EmptyString
      | r => String a r
      end
  end.

Definition strip (p : ascii -> bool) (s : string) : string :=
  rstrip p (lstrip p s).

(** [s.replace(b, "")] for a single character [b]. *)
Fixpoint remove (b : ascii) (s : string) : string :=
  match s with
  | EmptyString => EmptyString
  | String a s' => if Ascii.eqb a b then remove b s' else String a (remove b s')
  end.

(** [s[:i]]. *)
Definition take (i : nat) (s : string) : string := substring 0 i s.

Definition lower_char (c : ascii) : ascii :=
  if ((65 <=? ord c) && (ord c <=? 90))%N
  then ascii_of_N (ord c + 32) else c.

(** [s.lower()], on the ASCII letters. *)
Fixpoint lower (s : string) : string :=
  match s with
  | EmptyString => EmptyString
  | String a s' => String (lower_char a) (lower s')
  end.

(** Truth value of a [str]. *)
Definition nonempty (s : string) : bool :=
  match s with EmptyString => false | String _ _ => true end.

(** Truth value of an optional [str] ([None] and [""] are false). *)
Definition truthy (o : option string) : bool :=
  match o with Some s => nonempty s | None => false end.

(** [max(l, key=key)] on a non-empty list [x :: l]: the running maximum
    is replaced only by a strictly greater key. *)
Fixpoint max_by {A : Type} (key : A -> nat) (x : A) (l : list A) : A :=
  match l with
  | [] => x
  | y :: l' => if (key x <? key y)%nat then max_by key y l' else max_by key x l'
  end.

End PyStr.

(** ** [urllib.parse]: the scheme of [urlparse(url, scheme)]

    After [urlsplit] of CPython 3.11 ([Lib/urllib/parse.py]). *)

Module UrlParse.
Import PyStr.

Definition scheme_chars : string :=
  "abcdefghijklmnopqrstuvwxyz" ++ "ABCDEFGHIJKLMNOPQRSTUVWXYZ" ++ "0123456789" ++ "+-.".

(** [c in scheme_chars]. *)
Definition is_scheme_char (c : ascii) : bool := char_in c scheme_chars.

(** Membership in [_WHATWG_C0_CONTROL_OR_SPACE], the characters
    [\x00] to [\x1f] and the space. *)
Definition c0_control_or_space (c : ascii) : bool := (ord c <=? 32)%N.

(** [_UNSAFE_URL_BYTES_TO_REMOVE]: tab, carriage return, line feed. *)
Definition unsafe_url_bytes : list ascii :=
  [ascii_of_N 9; ascii_of_N 13; ascii_of_N 10].

Definition remove_unsafe (s : string) : string :=
  fold_left (fun acc b => remove b acc) unsafe_url_bytes s.

(** The url as [urlsplit] looks at it when it searches the scheme. *)
Definition sanitize (url : string) : string :=
  remove_unsafe (lstrip c0_control_or_space url).

Definition head_alpha (url : string) : bool :=
  match url with
  | EmptyString => false
  | String c _ => isascii c && isalpha_ascii c
  end.

(** The [scheme] component computed by [urlsplit] (and kept by
    [urlparse]). *)
Definition urlsplit_scheme (url scheme : string) : string :=
  let url := lstrip c0_control_or_space url in
  let scheme := strip c0_control_or_space scheme in
  let url := remove_unsafe url in
  let scheme := remove_unsafe scheme in
  match find ":" url with
  | Some i =>
      if (0 <? i)%nat && head_alpha url
         && forallb is_scheme_char (list_ascii_of_string (take i url))
      then lower (take i url)
      else scheme
  | None => scheme
  end.

Definition urlparse_scheme (url scheme : string) : string :=
  urlsplit_scheme url scheme.

End UrlParse.

(** ** [_parse_s3_endpoint_url]

    The string the function returns when [urlparse] returns. *)

Definition _parse_s3_endpoint_url (endpoint_url : string) : string :=
  if negb (PyStr.nonempty (UrlParse.urlparse_scheme endpoint_url ""))
  then String.concat "://" ["https"; endpoint_url]
  else endpoint_url.

(** ** Mirrors and the world a call runs in *)

(** Modelled from the spec: class [spack.mirror.Mirror] is not part of the
    sources at hand.  A mirror entry exposes [fetch_url], [push_url] and,
    per access intent ([method]), accessors for the access token, the
    access-key pair, the profile name and the endpoint URL; each of them
    may be absent ([None]). *)
Record Mirror := {
  fetch_url : string;
  push_url : string;
  get_access_token : string -> option string;
  get_access_pair : string -> option (option string * option string);
  get_profile : string -> option string;
  get_endpoint_url : string -> option string
}.

(** What [get_s3_session] reads from outside at the time of one call. *)
Record World := {
  (** [MirrorCollection().items()], in iteration order *)
  MirrorCollection : list (string * Mirror);
  (** [spack.config.get("config:verify_ssl")] *)
  verify_ssl : bool;
  (** [os.environ.get("S3_ENDPOINT_URL")] *)
  S3_ENDPOINT_URL : option string;
  (** truth value of [session.get_credentials()] for the session built
      from the given [s3_connection] *)
  get_credentials : gmap string string -> bool;
  (** [urlparse(url).geturl()] *)
  geturl : string -> string
}.

(** Values stored in [s3_client_args]. *)
Inductive arg_value :=
| ArgBool (b : bool)
| ArgStr (s : string)
| ArgConfigUnsigned. (* Config(signature_version=UNSIGNED) *)

(** The object returned by [session.client], with the service name, the
    client arguments and the parameters of the session it was made from. *)
Record Client := {
  client_id : nat;
  client_service : string;
  client_session : gmap string string;
  client_args : gmap string arg_value;
  client_ClientError : bool
}.

(** The process state: the module-level cache and the number of clients
    constructed so far. *)
Record State := {
  s3_client_cache : gmap (option string * string) Client;
  constructed : nat
}.

Definition initial_state : State :=
  {| s3_client_cache := ∅; constructed := 0 |}.

(** ** [get_mirror_s3_connection_info] *)

(** [d[key] = value] guarded by [if value:]. *)
Definition set_if_truthy (key : string) (value : option string)
    (d : gmap string string) : gmap string string :=
  match value with
  | Some v => if PyStr.nonempty v then <[key := v]> d else d
  | None => d
  end.

(** The guard [access_pair and access_pair[0] and access_pair[1]] and the
    two assignments under it. *)
Definition set_access_pair (access_pair : option (option string * option string))
    (d : gmap string string) : gmap string string :=
  match access_pair with
  | Some (Some key_id, Some secret) =>
      if PyStr.nonempty key_id && PyStr.nonempty secret
      then <["aws_secret_access_key" := secret]> (<["aws_access_key_id" := key_id]> d)
      else d
  | _ => d
  end.

(** Python's [a or b] on optional strings. *)
Definition py_or (a b : option string) : option string :=
  if PyStr.truthy a then a else b.

(** [mirror] is [Some m] for a [Mirror] instance and [None] for the empty
    dict that stands for no mirror. *)
Definition get_mirror_s3_connection_info (w : World) (mirror : option Mirror)
    (method : string) : gmap string string * gmap string arg_value :=
  let s3_connection : gmap string string := ∅ in
  let s3_client_args : gmap string arg_value :=
    {[ "use_ssl" := ArgBool (verify_ssl w) ]} in
  let '(s3_connection, endpoint_url) :=
    match mirror with
    | Some mirror =>
        let s3_connection :=
          set_if_truthy "aws_session_token" (get_access_token mirror method)
            s3_connection in
        let s3_connection :=
          set_access_pair (get_access_pair mirror method) s3_connection in
        let s3_connection :=
          set_if_truthy "profile_name" (get_profile mirror method) s3_connection in
        (s3_connection, py_or (get_endpoint_url mirror method) (S3_ENDPOINT_URL w))
    | None => (s3_connection, S3_ENDPOINT_URL w)
    end in
  let s3_client_args :=
    match endpoint_url with
    | Some e =>
        if PyStr.nonempty e
        then <["endpoint_url" := ArgStr (_parse_s3_endpoint_url e)]> s3_client_args
        else s3_client_args
    | None => s3_client_args
    end in
  (s3_connection, s3_client_args).

(** ** [get_s3_session] *)

Definition get_mirror_url (method : string) (mirror : Mirror) : string :=
  if String.eqb method "fetch" then fetch_url mirror else push_url mirror.

(** The condition of the list comprehension,
    [url_str.startswith(get_mirror_url(mirror))]. *)
Definition mirror_matches (url_str method : string) (nm : string * Mirror) : bool :=
  String.prefix (get_mirror_url method (snd nm)) url_str.

(** The key of [max], [len(get_mirror_url(name_and_mirror[1]))]. *)
Definition url_length (method : string) (nm : string * Mirror) : nat :=
  String.length (get_mirror_url method (snd nm)).

(** The list comprehension: the mirrors whose url starts the target. *)
Definition matching_mirrors (all_mirrors : list (string * Mirror))
    (url_str method : string) : list (string * Mirror) :=
  List.filter (mirror_matches url_str method) all_mirrors.

(** [name, mirror] after the [if not mirrors: ... else: ...]. *)
Definition select_mirror (all_mirrors : list (string * Mirror))
    (url_str method : string) : option (string * Mirror) :=
  match matching_mirrors all_mirrors url_str method with
  | [] => None
  | nm :: rest =>
      Some (PyStr.max_by (url_length method) nm rest)
  end.

Definition cache_key (all_mirrors : list (string * Mirror))
    (url_str method : string) : option string * string :=
  (fst <$> select_mirror all_mirrors url_str method, method).

Definition get_s3_session (w : World) (url : string) (method : string)
    (st : State) : Client * State :=
  let url_str := geturl w url in
  let selected := select_mirror (MirrorCollection w) url_str method in
  let name := fst <$> selected in
  let mirror := snd <$> selected in
  let key := (name, method) in
  match s3_client_cache st !! key with
  | Some client => (client, st)
  | None =>
      let '(s3_connection, s3_client_args) :=
        get_mirror_s3_connection_info w mirror method in
      let s3_client_args :=
        if negb (get_credentials w s3_connection)
        then <["config" := ArgConfigUnsigned]> s3_client_args
        else s3_client_args in
      let client :=
        {| client_id := constructed st;
           client_service := "s3";
           client_session := s3_connection;
           client_args := s3_client_args;
           client_ClientError := true |} in
      (client,
       {| s3_client_cache := <[key := client]> (s3_client_cache st);
          constructed := S (constructed st) |})
  end.

(** States the process can be in: the cache starts empty and changes only
    through [get_s3_session], each call in the world of its time. *)
Inductive reachable : State -> Prop :=
| reachable_initial : reachable initial_state
| reachable_call w url method st :
    reachable st -> reachable (snd (get_s3_session w url method st)).

(** ** Vocabulary of the properties *)

(** [s.startswith(p)], as a proposition. *)
Definition starts_with (s p : string) : Prop := exists t, s = p ++ t.

(** A URI scheme: an ASCII letter followed by scheme characters. *)
Definition scheme_syntax (sch : string) : Prop :=
  UrlParse.head_alpha sch = true /\
  forallb UrlParse.is_scheme_char (list_ascii_of_string sch) = true.

(** The endpoint string, as the parser reads it, is [scheme ":" rest]. *)
Definition has_explicit_scheme (endpoint_url : string) : Prop :=
  exists sch rest,
    UrlParse.sanitize endpoint_url = sch ++ ":" ++ rest /\ scheme_syntax sch.

(** The guard on the access pair: both components present and non-empty. *)
Definition complete_pair (access_pair : option (option string * option string))
    : option (string * string) :=
  match access_pair with
  | Some (Some key_id, Some secret) =>
      if PyStr.nonempty key_id && PyStr.nonempty secret
      then Some (key_id, secret) else None
  | _ => None
  end.

(** One call of [get_s3_session], and a run of such calls. *)
Record Call := {
  call_world : World;
  call_url : string;
  call_method : string
}.

Definition run_calls (calls : list Call) (st : State) : State :=
  fold_left
    (fun st c => snd (get_s3_session (call_world c) (call_url c) (call_method c) st))
    calls st.

(** The endpoint a mirror entry (or none) configures for the intent. *)
Definition mirror_endpoint (mirror : option Mirror) (method : string)
    : option string :=
  match mirror with
  | Some m => get_endpoint_url m method
  | None => None
  end.

(** ** Sample configurations *)

Definition plain_mirror (url : string) : Mirror :=
  {| fetch_url := url;
     push_url := url;
     get_access_token := fun _ => None;
     get_access_pair := fun _ => None;
     get_profile := fun _ => None;
     get_endpoint_url := fun _ => None |}.

Definition token_pair_mirror : Mirror :=
  {| fetch_url := "s3://bucket";
     push_url := "s3://bucket";
     get_access_token := fun _ => Some "tok";
     get_access_pair := fun _ => Some (Some "id", Some "secret");
     get_profile := fun _ => None;
     get_endpoint_url := fun _ => Some "s3.example.com" |}.

Definition profile_mirror : Mirror :=
  {| fetch_url := "s3://bucket";
     push_url := "s3://bucket";
     get_access_token := fun _ => None;
     get_access_pair := fun _ => Some (None, None);
     get_profile := fun _ => Some "default";
     get_endpoint_url := fun _ => None |}.

(** A world without ambient credentials: a session has credentials when
    it was given a key pair or a profile. *)
Definition sample_world (mirrors : list (string * Mirror))
    (endpoint : option string) : World :=
  {| MirrorCollection := mirrors;
     verify_ssl := true;
     S3_ENDPOINT_URL := endpoint;
     get_credentials := fun conn =>
       match conn !! "aws_access_key_id", conn !! "profile_name" with
       | None, None => false
       | _, _ => true
       end;
     geturl := fun url => url |}.

(** ** Calls and the exceptions they raise

    [_parse_s3_endpoint_url], [get_mirror_s3_connection_info] and
    [get_s3_session] above give what a call returns when nothing raises.
    The definitions below are the calls themselves: [urlsplit] raises
    [ValueError] on a malformed netloc, and the exception passes through
    the three functions unhandled, as do those of the SDK. *)

Inductive exception :=
| ValueError
| SdkError.

Inductive outcome (A : Type) : Type :=
| Returns (a : A)
| Raises (e : exception).

Arguments Returns {A} a.
Arguments Raises {A} e.

(** What the library code that is not written out here decides. *)
Record Library := {
  (** [_check_bracketed_netloc(netloc)] raises (it parses the bracketed
      host with [ipaddress] and [re]) *)
  bracketed_netloc_invalid : string -> bool;
  (** [_checknetloc(netloc)] raises on a non-ASCII netloc (it looks at
      the NFKC normalization of the netloc) *)
  nfkc_netloc_invalid : string -> bool;
  (** constructing the session from the given [s3_connection], or asking
      it for its credentials, raises *)
  session_raises : gmap string string -> bool;
  (** [session.client] raises for the given session parameters and
      client arguments *)
  client_raises : gmap string string -> gmap string arg_value -> bool
}.

(** [s[i:]]. *)
Fixpoint str_from (i : nat) (s : string) : string :=
  match i, s with
  | 0, _ => s
  | S i', String _ s' => str_from i' s'
  | S _, EmptyString => EmptyString
  end.

(** [s[a:b]]. *)
Definition str_slice (a b : nat) (s : string) : string := substring a (b - a) s.

(** [s.find(c, start)]: [None] stands for Python's [-1]. *)
Definition find_from (c : ascii) (start : nat) (s : string) : option nat :=
  option_map (fun i => start + i) (PyStr.find c (str_from start s)).

(** [str.isascii] on a string. *)
Definition str_isascii (s : string) : bool :=
  forallb PyStr.isascii (list_ascii_of_string s).

(** [urlsplit] up to the split of the scheme: the scheme and the rest of
    the url. *)
Definition urlsplit_head (url scheme : string) : string * string :=
  let url := PyStr.lstrip UrlParse.c0_control_or_space url in
  let scheme := PyStr.strip UrlParse.c0_control_or_space scheme in
  let url := UrlParse.remove_unsafe url in
  let scheme := UrlParse.remove_unsafe scheme in
  match PyStr.find ":" url with
  | Some i =>
      if (0 <? i)%nat && UrlParse.head_alpha url
         && forallb UrlParse.is_scheme_char (list_ascii_of_string (PyStr.take i url))
      then (PyStr.lower (PyStr.take i url), str_from (i + 1) url)
      else (scheme, url)
  | None => (scheme, url)
  end.

Definition _splitnetloc (url : string) (start : nat) : string * string :=
  let delim :=
    fold_left
      (fun delim c =>
         match find_from c start url with
         | Some wdelim => Nat.min delim wdelim
         | None => delim
         end)
      (list_ascii_of_string "/?#") (String.length url) in
  (str_slice start delim url, str_from delim url).

(** The netloc [urlsplit] extracts: the part between a leading ["//"] and
    the next delimiter, empty without a leading ["//"]. *)
Definition urlsplit_netloc (url : string) : string :=
  let url := snd (urlsplit_head url "") in
  if String.prefix "//" url then fst (_splitnetloc url 2) else "".

(** [urlsplit(url)] raises [ValueError]: a bracket without its partner
    in the netloc, a bracketed host that [_check_bracketed_netloc]
    rejects, or a netloc that [_checknetloc] rejects. *)
Definition urlsplit_raises (lib : Library) (url : string) : bool :=
  let netloc := urlsplit_netloc url in
  let has_open := PyStr.char_in "[" netloc in
  let has_close := PyStr.char_in "]" netloc in
  (has_open && negb has_close || has_close && negb has_open)
  || (has_open && has_close && bracketed_netloc_invalid lib netloc)
  || (PyStr.nonempty netloc && negb (str_isascii netloc)
      && nfkc_netloc_invalid lib netloc).

(** The call [urlparse(url, scheme).scheme]. *)
Definition urlparse_scheme_call (lib : Library) (url scheme : string)
    : outcome string :=
  if urlsplit_raises lib url then Raises ValueError
  else Returns (fst (urlsplit_head url scheme)).

Definition _parse_s3_endpoint_url_call (lib : Library) (endpoint_url : string)
    : outcome string :=
  match urlparse_scheme_call lib endpoint_url "" with
  | Raises e => Raises e
  | Returns scheme =>
      if negb (PyStr.nonempty scheme)
      then Returns (String.concat "://" ["https"; endpoint_url])
      else Returns endpoint_url
  end.

Definition get_mirror_s3_connection_info_call (lib : Library) (w : World)
    (mirror : option Mirror) (method : string)
    : outcome (gmap string string * gmap string arg_value) :=
  let s3_connection : gmap string string := ∅ in
  let s3_client_args : gmap string arg_value :=
    {[ "use_ssl" := ArgBool (verify_ssl w) ]} in
  let '(s3_connection, endpoint_url) :=
    match mirror with
    | Some mirror =>
        let s3_connection :=
          set_if_truthy "aws_session_token" (get_access_token mirror method)
            s3_connection in
        let s3_connection :=
          set_access_pair (get_access_pair mirror method) s3_connection in
        let s3_connection :=
          set_if_truthy "profile_name" (get_profile mirror method) s3_connection in
        (s3_connection, py_or (get_endpoint_url mirror method) (S3_ENDPOINT_URL w))
    | None => (s3_connection, S3_ENDPOINT_URL w)
    end in
  match endpoint_url with
  | Some e =>
      if PyStr.nonempty e
      then
        match _parse_s3_endpoint_url_call lib e with
        | Raises x => Raises x
        | Returns parsed =>
            Returns (s3_connection,
                     <["endpoint_url" := ArgStr parsed]> s3_client_args)
        end
      else Returns (s3_connection, s3_client_args)
  | None => Returns (s3_connection, s3_client_args)
  end.

Definition get_s3_session_call (lib : Library) (w : World) (url : string)
    (method : string) (st : State) : outcome (Client * State) :=
  match urlparse_scheme_call lib url "" with
  | Raises e => Raises e
  | Returns _ =>
      let url_str := geturl w url in
      let selected := select_mirror (MirrorCollection w) url_str method in
      let name := fst <$> selected in
      let mirror := snd <$> selected in
      let key := (name, method) in
      match s3_client_cache st !! key with
      | Some client => Returns (client, st)
      | None =>
          match get_mirror_s3_connection_info_call lib w mirror method with
          | Raises e => Raises e
          | Returns (s3_connection, s3_client_args) =>
              if session_raises lib s3_connection then Raises SdkError
              else
                let s3_client_args :=
                  if negb (get_credentials w s3_connection)
                  then <["config" := ArgConfigUnsigned]> s3_client_args
                  else s3_client_args in
                if client_raises lib s3_connection s3_client_args
                then Raises SdkError
                else
                  let client :=
                    {| client_id := constructed st;
                       client_service := "s3";
                       client_session := s3_connection;
                       client_args := s3_client_args;
                       client_ClientError := true |} in
                  Returns
                    (client,
                     {| s3_client_cache := <[key := client]> (s3_client_cache st);
                        constructed := S (constructed st) |})
          end
      end
  end.

(** The endpoint string [get_mirror_s3_connection_info] settles on,
    before the test [if endpoint_url:]. *)
Definition resolved_endpoint (w : World) (mirror : option Mirror)
    (method : string) : option string :=
  match mirror with
  | Some m => py_or (get_endpoint_url m method) (S3_ENDPOINT_URL w)
  | None => S3_ENDPOINT_URL w
  end.

(** A library whose undetermined checks never raise. *)
Definition permissive_library : Library :=
  {| bracketed_netloc_invalid := fun _ => false;
     nfkc_netloc_invalid := fun _ => false;
     session_raises := fun _ => false;
     client_raises := fun _ _ => false |}.

(** * Properties *)

(** ** Strings *)

Section StringFacts.
Import PyStr.

Lemma nonempty_true_iff s : nonempty s = true <-> s <> "".
Proof. destruct s; simpl; split; congruence. Qed.

Lemma nonempty_false_iff s : nonempty s = false <-> s = "".
Proof. destruct s; simpl; split; congruence. Qed.

Lemma prefix_starts_with p s : String.prefix p s = true <-> starts_with s p.
Proof.
  unfold starts_with. revert s.
  induction p as [|a p IH]; intros s; simpl.
  - split; [exists s; reflexivity | destruct s; reflexivity].
  - destruct s as [|b s]; simpl.
    + split; [discriminate | intros [t Ht]; discriminate].
    + destruct (ascii_dec a b) as [->|Hne].
      * rewrite IH. split; intros [t Ht]; exists t; simpl in *; congruence.
      * split; [discriminate | intros [t Ht]; simpl in Ht; congruence].
Qed.

Lemma find_app_at c s t :
  find c s = None -> find c (s ++ String c t) = Some (String.length s).
Proof.
  induction s as [|a s IH]; simpl.
  - intros _. rewrite Ascii.eqb_refl. reflexivity.
  - destruct (Ascii.eqb a c); [discriminate|].
    destruct (find c s); [discriminate|].
    intros _. rewrite IH by reflexivity. reflexivity.
Qed.

Lemma find_split c s i :
  find c s = Some i -> exists t, s = take i s ++ String c t.
Proof.
  revert i. induction s as [|a s IH]; simpl; [discriminate|].
  intros i. destruct (Ascii.eqb a c) eqn:E.
  - intros [= <-]. apply Ascii.eqb_eq in E as ->. exists s. reflexivity.
  - destruct (find c s) as [j|]; [|discriminate].
    intros [= <-]. destruct (IH j eq_refl) as [t Ht].
    exists t. unfold take in *. simpl. congruence.
Qed.

Lemma take_app_length s t : take (String.length s) (s ++ t) = s.
Proof.
  unfold take. induction s as [|a s IH]; simpl.
  - destruct t; reflexivity.
  - congruence.
Qed.

Lemma lower_nonempty s : nonempty (lower s) = nonempty s.
Proof. destruct s; reflexivity. Qed.

Lemma remove_app b s t : remove b (s ++ t) = remove b s ++ remove b t.
Proof.
  induction s as [|a s IH]; simpl; [reflexivity|].
  destruct (Ascii.eqb a b); simpl; congruence.
Qed.

Lemma remove_absent b s :
  forallb (fun c => negb (Ascii.eqb c b)) (list_ascii_of_string s) = true ->
  remove b s = s.
Proof.
  induction s as [|a s IH]; simpl; [reflexivity|].
  destruct (Ascii.eqb a b); simpl; [discriminate|].
  intros H. rewrite IH by exact H. reflexivity.
Qed.

End StringFacts.

(** ** Scheme detection *)

Section SchemeFacts.
Import PyStr UrlParse.

Lemma scheme_char_differs (b a : ascii) :
  is_scheme_char b = false ->
  is_scheme_char a = true -> Ascii.eqb a b = false.
Proof.
  intros Hb Ha. destruct (Ascii.eqb a b) eqn:E; [|reflexivity].
  apply Ascii.eqb_eq in E. subst a. congruence.
Qed.

Lemma scheme_chars_avoid (b : ascii) (s : string) :
  is_scheme_char b = false ->
  forallb is_scheme_char (list_ascii_of_string s) = true ->
  forallb (fun c => negb (Ascii.eqb c b)) (list_ascii_of_string s) = true.
Proof.
  intros Hb. induction s as [|a s IH]; simpl; [reflexivity|].
  intros H. apply andb_prop in H as [Ha Hs].
  rewrite (scheme_char_differs b a Hb Ha). simpl. apply IH, Hs.
Qed.

Lemma scheme_chars_no_colon s :
  forallb is_scheme_char (list_ascii_of_string s) = true -> find ":" s = None.
Proof.
  induction s as [|a s IH]; simpl; [reflexivity|].
  intros H. apply andb_prop in H as [Ha Hs].
  rewrite (scheme_char_differs ":" a eq_refl Ha), (IH Hs). reflexivity.
Qed.

Lemma remove_unsafe_app s t :
  remove_unsafe (s ++ t) = remove_unsafe s ++ remove_unsafe t.
Proof. unfold remove_unsafe. simpl. rewrite !remove_app. reflexivity. Qed.

Lemma remove_unsafe_scheme_chars s :
  forallb is_scheme_char (list_ascii_of_string s) = true -> remove_unsafe s = s.
Proof.
  intros H. unfold remove_unsafe. simpl.
  assert (forall b, is_scheme_char b = false -> remove b s = s) as R
    by (intros b Hb; apply remove_absent, scheme_chars_avoid; assumption).
  rewrite !R; reflexivity.
Qed.

Lemma head_alpha_not_stripped s :
  head_alpha s = true -> lstrip c0_control_or_space s = s.
Proof.
  destruct s as [|c s]; simpl; [reflexivity|].
  unfold isascii, isalpha_ascii, c0_control_or_space.
  intros H. destruct (N.leb_spec (ord c) 32) as [Hle|]; [|reflexivity].
  exfalso. apply andb_prop in H as [_ H]. apply orb_prop in H as [H|H];
    apply andb_prop in H as [H _]; apply N.leb_le in H; lia.
Qed.

Lemma head_alpha_app s t :
  head_alpha s = true -> head_alpha (s ++ t) = true.
Proof. destruct s; simpl; [discriminate | auto]. Qed.

Lemma head_alpha_take i s :
  (0 <? i)%nat = true -> head_alpha (take i s) = head_alpha s.
Proof. destruct i, s; simpl; try discriminate; reflexivity. Qed.

(** [urlparse] reports a scheme exactly for the strings that, once
    sanitized, are a scheme followed by a colon. *)
Lemma urlparse_scheme_detects (e : string) :
  nonempty (urlparse_scheme e "") = true <-> has_explicit_scheme e.
Proof.
  unfold urlparse_scheme, urlsplit_scheme, has_explicit_scheme, sanitize.
  change (remove_unsafe (strip c0_control_or_space "")) with "".
  cbv zeta. set (u := remove_unsafe (lstrip c0_control_or_space e)).
  split.
  - destruct (find ":" u) as [i|] eqn:F; [|discriminate].
    destruct (_ && _) eqn:C; [|discriminate]. intros _.
    apply andb_prop in C as [C Hf]. apply andb_prop in C as [Hi Hh].
    destruct (find_split _ _ _ F) as [t Ht].
    exists (take i u), t. split; [exact Ht|].
    split; [rewrite head_alpha_take; assumption | exact Hf].
  - intros (sch & rest & Hu & Hh & Hf). rewrite Hu.
    change (sch ++ ":" ++ rest) with (sch ++ String ":" rest).
    rewrite (find_app_at _ _ _ (scheme_chars_no_colon _ Hf)).
    rewrite take_app_length, Hf, (head_alpha_app _ _ Hh).
    destruct sch; [discriminate Hh | reflexivity].
Qed.

Lemma sanitize_scheme_colon host rest :
  scheme_syntax host ->
  sanitize (host ++ ":" ++ rest) = host ++ ":" ++ remove_unsafe rest.
Proof.
  intros [Hh Hf]. unfold sanitize.
  rewrite (head_alpha_not_stripped _ (head_alpha_app _ _ Hh)).
  rewrite !remove_unsafe_app, (remove_unsafe_scheme_chars _ Hf).
  reflexivity.
Qed.

End SchemeFacts.

(** The scheme [urlparse] reports on some endpoint strings. *)
Example scheme_of_http :
  UrlParse.urlparse_scheme "HTTP://s3.example.com" "" = "http".
Proof. reflexivity. Qed.

Example scheme_of_host_port :
  UrlParse.urlparse_scheme "s3.example.com:9000" "" = "s3.example.com".
Proof. reflexivity. Qed.

Example scheme_of_ip_port : UrlParse.urlparse_scheme "127.0.0.1:9000" "" = "".
Proof. reflexivity. Qed.

Example scheme_of_plain_host : UrlParse.urlparse_scheme "s3.example.com" "" = "".
Proof. reflexivity. Qed.

Example scheme_after_leading_space :
  UrlParse.urlparse_scheme " http://s3.example.com" "" = "http".
Proof. reflexivity. Qed.

Example scheme_across_tab :
  UrlParse.urlparse_scheme ("ht" ++ String (ascii_of_N 9) "tp://s3.example.com") ""
    = "http".
Proof. reflexivity. Qed.

Example scheme_needs_scheme_chars : UrlParse.urlparse_scheme "a_b:c" "" = "".
Proof. reflexivity. Qed.

Example scheme_needs_leading_letter : UrlParse.urlparse_scheme "+a:b" "" = "".
Proof. reflexivity. Qed.

(** The value [_parse_s3_endpoint_url] computes, by the scheme of its
    argument. *)
Lemma parse_s3_endpoint_url_by_scheme (endpoint_url : string) :
  (has_explicit_scheme endpoint_url ->
     _parse_s3_endpoint_url endpoint_url = endpoint_url) /\
  (~ has_explicit_scheme endpoint_url ->
     _parse_s3_endpoint_url endpoint_url = "https://" ++ endpoint_url).
Proof.
  unfold _parse_s3_endpoint_url.
  pose proof (urlparse_scheme_detects endpoint_url) as H.
  destruct (PyStr.nonempty _); simpl; split; intros Hs; try reflexivity.
  - exfalso. apply Hs, H. reflexivity.
  - apply H in Hs. discriminate.
Qed.


(** ** Connection parameters *)

Section ConnectionInfo.
Import PyStr.

Lemma truthy_Some_iff (v : option string) :
  truthy v = true <-> exists s, v = Some s /\ s <> "".
Proof.
  destruct v as [s|]; simpl.
  - rewrite nonempty_true_iff. split; [eauto | intros (? & [= <-] & ?); done].
  - split; [done | intros (? & ? & _); done].
Qed.

Lemma set_if_truthy_true k v s (d : gmap string string) :
  v = Some s -> s <> "" -> set_if_truthy k v d = <[k := s]> d.
Proof.
  intros -> Hs. unfold set_if_truthy.
  apply nonempty_true_iff in Hs. rewrite Hs. reflexivity.
Qed.

Lemma set_if_truthy_false k v (d : gmap string string) :
  truthy v = false -> set_if_truthy k v d = d.
Proof. destruct v as [s|]; simpl; [intros ->|]; reflexivity. Qed.

Lemma set_if_truthy_other k k' v (d : gmap string string) :
  k <> k' -> set_if_truthy k v d !! k' = d !! k'.
Proof.
  intros Hk. unfold set_if_truthy.
  destruct v as [s|]; [destruct (nonempty s)|]; try reflexivity.
  apply lookup_insert_ne, Hk.
Qed.

Lemma set_access_pair_complete ap a b (d : gmap string string) :
  complete_pair ap = Some (a, b) ->
  set_access_pair ap d
    = <["aws_secret_access_key" := b]> (<["aws_access_key_id" := a]> d).
Proof.
  unfold complete_pair, set_access_pair.
  destruct ap as [[[x|] [y|]]|]; try discriminate.
  destruct (_ && _); [|discriminate]. intros [= -> ->]. reflexivity.
Qed.

Lemma set_access_pair_incomplete ap (d : gmap string string) :
  complete_pair ap = None -> set_access_pair ap d = d.
Proof.
  unfold complete_pair, set_access_pair.
  destruct ap as [[[x|] [y|]]|]; try reflexivity.
  destruct (_ && _); [discriminate | reflexivity].
Qed.

Lemma set_access_pair_other ap k (d : gmap string string) :
  k <> "aws_access_key_id" -> k <> "aws_secret_access_key" ->
  set_access_pair ap d !! k = d !! k.
Proof.
  intros H1 H2. destruct (complete_pair ap) as [[a b]|] eqn:E.
  - rewrite (set_access_pair_complete _ _ _ _ E).
    rewrite !lookup_insert_ne by congruence. reflexivity.
  - rewrite (set_access_pair_incomplete _ _ E). reflexivity.
Qed.

Lemma complete_pair_Some ap a b :
  ap = Some (Some a, Some b) -> a <> "" -> b <> "" ->
  complete_pair ap = Some (a, b).
Proof.
  intros -> Ha Hb. unfold complete_pair.
  apply nonempty_true_iff in Ha, Hb. rewrite Ha, Hb. reflexivity.
Qed.

(** The session parameters derived from a mirror. *)
Lemma connection_of_mirror w m method :
  fst (get_mirror_s3_connection_info w (Some m) method)
  = set_if_truthy "profile_name" (get_profile m method)
      (set_access_pair (get_access_pair m method)
         (set_if_truthy "aws_session_token" (get_access_token m method) ∅)).
Proof. reflexivity. Qed.

Lemma connection_without_mirror w method :
  fst (get_mirror_s3_connection_info w None method) = ∅.
Proof. reflexivity. Qed.

(** The client arguments: [use_ssl] and, for a non-empty endpoint, the
    normalized [endpoint_url]. *)
Lemma client_args_endpoint w mirror method :
  snd (get_mirror_s3_connection_info w mirror method) !! "endpoint_url"
  = match
      match mirror with
      | Some m => py_or (get_endpoint_url m method) (S3_ENDPOINT_URL w)
      | None => S3_ENDPOINT_URL w
      end
    with
    | Some e =>
        if nonempty e then Some (ArgStr (_parse_s3_endpoint_url e)) else None
    | None => None
    end.
Proof.
  unfold get_mirror_s3_connection_info.
  destruct mirror as [m|]; cbv zeta beta iota;
    match goal with |- context [match ?ep with Some _ => _ | None => _ end] =>
      destruct ep as [e|]; [destruct (nonempty e)|] end;
    simpl; first [apply lookup_insert_eq | reflexivity].
Qed.

Lemma client_args_no_config w mirror method :
  snd (get_mirror_s3_connection_info w mirror method) !! "config" = None.
Proof.
  unfold get_mirror_s3_connection_info.
  destruct mirror as [m|]; cbv zeta beta iota;
    match goal with |- context [match ?ep with Some _ => _ | None => _ end] =>
      destruct ep as [e|]; [destruct (nonempty e)|] end;
    simpl; rewrite ?lookup_insert_ne by congruence; reflexivity.
Qed.

End ConnectionInfo.

(** C2, as the claim words it, fails: a mirror with an access token and a
    complete key pair gets both into the session parameters. *)
Lemma token_and_pair_both_included :
  let conn := fst (get_mirror_s3_connection_info (sample_world [] None)
                     (Some token_pair_mirror) "fetch") in
  PyStr.truthy (get_access_token token_pair_mirror "fetch") = true /\
  conn !! "aws_session_token" = Some "tok" /\
  conn !! "aws_access_key_id" = Some "id" /\
  conn !! "aws_secret_access_key" = Some "secret".
Proof. vm_compute. repeat split. Qed.

(** C2, amended: a configured (non-empty) access token is included as
    [aws_session_token], and a key pair with both components non-empty is
    included as [aws_access_key_id] and [aws_secret_access_key]; the two
    are decided independently, so both are included when both are
    configured, and each is left out when it is not configured. *)
Theorem credentials_token_and_pair (w : World) (m : Mirror) (method : string) :
  let conn := fst (get_mirror_s3_connection_info w (Some m) method) in
  (forall t, get_access_token m method = Some t -> t <> "" ->
     conn !! "aws_session_token" = Some t) /\
  (forall a b, get_access_pair m method = Some (Some a, Some b) ->
     a <> "" -> b <> "" ->
     conn !! "aws_access_key_id" = Some a /\
     conn !! "aws_secret_access_key" = Some b) /\
  (PyStr.truthy (get_access_token m method) = false ->
     conn !! "aws_session_token" = None) /\
  (complete_pair (get_access_pair m method) = None ->
     conn !! "aws_access_key_id" = None /\
     conn !! "aws_secret_access_key" = None).
Proof.
  cbv zeta. rewrite connection_of_mirror.
  split; [|split; [|split]].
  - intros t Ht Hne.
    rewrite set_if_truthy_other, set_access_pair_other by congruence.
    rewrite (set_if_truthy_true _ _ _ _ Ht Hne). apply lookup_insert_eq.
  - intros a b Hpair Ha Hb.
    rewrite !set_if_truthy_other by congruence.
    rewrite (set_access_pair_complete _ _ _ _ (complete_pair_Some _ _ _ Hpair Ha Hb)).
    split; [rewrite lookup_insert_ne by congruence|]; apply lookup_insert_eq.
  - intros Ht.
    rewrite set_if_truthy_other, set_access_pair_other by congruence.
    rewrite (set_if_truthy_false _ _ _ Ht). reflexivity.
  - intros Hpair.
    rewrite !set_if_truthy_other by congruence.
    rewrite (set_access_pair_incomplete _ _ Hpair).
    rewrite !set_if_truthy_other by congruence. split; reflexivity.
Qed.

Lemma credentials_token_and_pair_witness :
  let conn := fst (get_mirror_s3_connection_info (sample_world [] None)
                     (Some token_pair_mirror) "push") in
  conn !! "aws_session_token" = Some "tok" /\
  conn !! "aws_access_key_id" = Some "id" /\
  conn !! "aws_secret_access_key" = Some "secret".
Proof.
  pose proof (credentials_token_and_pair (sample_world [] None)
                token_pair_mirror "push") as (Htok & Hpair & _).
  split.
  - apply (Htok "tok"); [reflexivity | discriminate].
  - apply (Hpair "id" "secret"); [reflexivity | discriminate | discriminate].
Defined.

(** C8: a mirror with a profile for the intent, no access token and no
    complete key pair yields session parameters that hold the profile
    name and neither a session token nor key-pair fields. *)
Theorem profile_only_connection (w : World) (m : Mirror) (method p : string) :
  get_profile m method = Some p -> p <> "" ->
  PyStr.truthy (get_access_token m method) = false ->
  complete_pair (get_access_pair m method) = None ->
  let conn := fst (get_mirror_s3_connection_info w (Some m) method) in
  conn !! "profile_name" = Some p /\
  conn !! "aws_session_token" = None /\
  conn !! "aws_access_key_id" = None /\
  conn !! "aws_secret_access_key" = None /\
  conn = {[ "profile_name" := p ]}.
Proof.
  intros Hp Hne Htok Hpair. cbv zeta. rewrite connection_of_mirror.
  rewrite (set_if_truthy_false _ _ _ Htok), (set_access_pair_incomplete _ _ Hpair).
  rewrite (set_if_truthy_true _ _ _ _ Hp Hne).
  rewrite lookup_insert_eq, !lookup_insert_ne by congruence.
  rewrite lookup_empty, insert_empty. repeat split.
Qed.

Lemma profile_only_connection_witness :
  let conn := fst (get_mirror_s3_connection_info (sample_world [] None)
                     (Some profile_mirror) "fetch") in
  conn !! "profile_name" = Some "default" /\
  conn !! "aws_session_token" = None /\
  conn !! "aws_access_key_id" = None /\
  conn !! "aws_secret_access_key" = None /\
  conn = {[ "profile_name" := "default" ]}.
Proof.
  apply (profile_only_connection (sample_world [] None) profile_mirror
           "fetch" "default"); [reflexivity | discriminate | reflexivity | reflexivity].
Defined.

(** C7: the [endpoint_url] client option is the (normalized) endpoint the
    mirror configures for the intent when there is one, else the
    (normalized) value of [S3_ENDPOINT_URL] when it is set, also when no
    mirror matched; with neither, the option is absent. *)
Theorem endpoint_resolution (w : World) (mirror : option Mirror) (method : string) :
  let args := snd (get_mirror_s3_connection_info w mirror method) in
  (forall e, mirror_endpoint mirror method = Some e -> e <> "" ->
     args !! "endpoint_url" = Some (ArgStr (_parse_s3_endpoint_url e))) /\
  (forall e, PyStr.truthy (mirror_endpoint mirror method) = false ->
     S3_ENDPOINT_URL w = Some e -> e <> "" ->
     args !! "endpoint_url" = Some (ArgStr (_parse_s3_endpoint_url e))) /\
  (forall e, mirror = None -> S3_ENDPOINT_URL w = Some e -> e <> "" ->
     args !! "endpoint_url" = Some (ArgStr (_parse_s3_endpoint_url e))) /\
  (PyStr.truthy (mirror_endpoint mirror method) = false ->
   PyStr.truthy (S3_ENDPOINT_URL w) = false ->
     args !! "endpoint_url" = None).
Proof.
  cbv zeta. rewrite client_args_endpoint. unfold py_or.
  repeat split.
  - intros e He Hne. destruct mirror as [m|]; [|discriminate]. simpl in He.
    apply nonempty_true_iff in Hne. rewrite He. simpl. rewrite Hne, Hne.
    reflexivity.
  - intros e Hm He Hne. apply nonempty_true_iff in Hne.
    destruct mirror as [m|]; simpl in Hm; rewrite ?Hm, He, Hne; reflexivity.
  - intros e -> He Hne. apply nonempty_true_iff in Hne.
    rewrite He, Hne. reflexivity.
  - intros Hm He.
    destruct mirror as [m|]; simpl in Hm; rewrite ?Hm;
      destruct (S3_ENDPOINT_URL w) as [e|]; simpl in He; rewrite ?He; reflexivity.
Qed.

Lemma endpoint_resolution_witness :
  snd (get_mirror_s3_connection_info (sample_world [] (Some "http://env:9000"))
         (Some token_pair_mirror) "fetch") !! "endpoint_url"
    = Some (ArgStr (_parse_s3_endpoint_url "s3.example.com")) /\
  snd (get_mirror_s3_connection_info (sample_world [] (Some "http://env:9000"))
         None "fetch") !! "endpoint_url"
    = Some (ArgStr (_parse_s3_endpoint_url "http://env:9000")) /\
  snd (get_mirror_s3_connection_info (sample_world [] None)
         (Some profile_mirror) "fetch") !! "endpoint_url" = None.
Proof.
  split; [|split].
  - apply (proj1 (endpoint_resolution (sample_world [] (Some "http://env:9000"))
                    (Some token_pair_mirror) "fetch"));
      [reflexivity | discriminate].
  - apply (proj1 (proj2 (proj2 (endpoint_resolution
                    (sample_world [] (Some "http://env:9000")) None "fetch"))));
      [reflexivity | reflexivity | discriminate].
  - apply (proj2 (proj2 (proj2 (endpoint_resolution (sample_world [] None)
                    (Some profile_mirror) "fetch")))); reflexivity.
Defined.

(** ** Mirror selection *)

Section Selection.
Import PyStr.

Context {A : Type} (key : A -> nat).

Lemma max_by_ge_head (l : list A) : forall x, key x <= key (max_by key x l).
Proof.
  induction l as [|y l IH]; intros x; simpl; [lia|].
  destruct (Nat.ltb_spec (key x) (key y)).
  - specialize (IH y). lia.
  - apply IH.
Qed.

(** [max] returns the first element of greatest key: everything before
    it is strictly smaller, everything after it is not greater. *)
Lemma max_by_first_greatest (l : list A) : forall x,
  exists l1 l2,
    x :: l = (l1 ++ max_by key x l :: l2)%list /\
    Forall (fun y => key y < key (max_by key x l)) l1 /\
    Forall (fun y => key y <= key (max_by key x l)) l2.
Proof.
  induction l as [|y l IH]; intros x; simpl.
  - exists [], []. repeat split; constructor.
  - destruct (Nat.ltb_spec (key x) (key y)) as [Hlt|Hge].
    + destruct (IH y) as (l1 & l2 & E & H1 & H2).
      pose proof (max_by_ge_head l y) as Hy.
      set (m := max_by key y l) in *. clearbody m.
      exists (x :: l1), l2. rewrite E. repeat split; [|exact H2].
      constructor; [lia | exact H1].
    + destruct (IH x) as (l1 & l2 & E & H1 & H2).
      set (m := max_by key x l) in *. clearbody m.
      destruct l1 as [|x' l1]; simpl in E; injection E as Ex El.
      * subst m l2. exists [], (y :: l). repeat split; [constructor|].
        constructor; [exact Hge | exact H2].
      * subst x'. exists (x :: y :: l1), l2. rewrite El.
        repeat split; [|exact H2].
        apply Forall_cons_1 in H1 as [Hx H1].
        constructor; [exact Hx|]. constructor; [lia | exact H1].
Qed.

Lemma filter_split (f : A -> bool) (all : list A) : forall l1 m l2,
  List.filter f all = (l1 ++ m :: l2)%list ->
  exists a1 a2,
    all = (a1 ++ m :: a2)%list /\ List.filter f a1 = l1 /\ List.filter f a2 = l2 /\
    f m = true.
Proof.
  induction all as [|a all IH]; intros l1 m l2; simpl.
  - destruct l1; discriminate.
  - destruct (f a) eqn:Fa.
    + destruct l1 as [|b l1]; simpl; intros E; injection E as Ea El.
      * subst a. exists [], all. simpl. auto.
      * subst b. destruct (IH _ _ _ El) as (a1 & a2 & -> & F1 & F2 & Fm).
        exists (a :: a1), a2. simpl. rewrite Fa, F1. auto.
    + intros E. destruct (IH _ _ _ E) as (a1 & a2 & -> & F1 & F2 & Fm).
      exists (a :: a1), a2. simpl. rewrite Fa. auto.
Qed.

End Selection.

Section SelectMirror.

Variables (all_mirrors : list (string * Mirror)) (url_str method : string).

(** Where the selected mirror stands in the collection. *)
Lemma select_mirror_position nm :
  select_mirror all_mirrors url_str method = Some nm ->
  exists before after,
    all_mirrors = (before ++ nm :: after)%list /\
    mirror_matches url_str method nm = true /\
    Forall (fun x => mirror_matches url_str method x = true ->
                     url_length method x < url_length method nm) before /\
    Forall (fun x => mirror_matches url_str method x = true ->
                     url_length method x <= url_length method nm) after.
Proof.
  unfold select_mirror, matching_mirrors.
  destruct (List.filter (mirror_matches url_str method) all_mirrors) as [|x rest] eqn:F; [discriminate|].
  intros [= <-].
  destruct (max_by_first_greatest (url_length method) rest x) as (l1 & l2 & E & H1 & H2).
  rewrite E in F.
  destruct (filter_split (mirror_matches url_str method) all_mirrors _ _ _ F)
    as (a1 & a2 & Hall & F1 & F2 & Fm).
  exists a1, a2. repeat split; [exact Hall | exact Fm | |].
  - apply List.Forall_forall. intros y Hy My.
    rewrite List.Forall_forall in H1. apply H1.
    rewrite <- F1. apply List.filter_In. auto.
  - apply List.Forall_forall. intros y Hy My.
    rewrite List.Forall_forall in H2. apply H2.
    rewrite <- F2. apply List.filter_In. auto.
Qed.

Lemma select_mirror_some :
  (exists nm, In nm all_mirrors /\ mirror_matches url_str method nm = true) ->
  exists nm, select_mirror all_mirrors url_str method = Some nm.
Proof.
  intros (nm & Hin & Hm). unfold select_mirror, matching_mirrors.
  destruct (List.filter (mirror_matches url_str method) all_mirrors) as [|x rest] eqn:F; [|eauto].
  assert (In nm (List.filter (mirror_matches url_str method) all_mirrors)) as Hf
    by (apply List.filter_In; auto).
  rewrite F in Hf. destruct Hf.
Qed.


End SelectMirror.

(** C1: when some mirror's url for the intent is a prefix of the target
    url, [get_s3_session] selects a mirror whose url is a prefix and is
    at least as long as that of every mirror whose url is a prefix; the
    client is made for, and cached under, that mirror. *)
Theorem longest_prefix_mirror_selected (w : World) (url method : string)
    (st : State) :
  let url_str := geturl w url in
  let mirrors := MirrorCollection w in
  (exists n m, In (n, m) mirrors /\ starts_with url_str (get_mirror_url method m)) ->
  exists n m,
    select_mirror mirrors url_str method = Some (n, m) /\
    In (n, m) mirrors /\
    starts_with url_str (get_mirror_url method m) /\
    (forall n' m', In (n', m') mirrors ->
       starts_with url_str (get_mirror_url method m') ->
       String.length (get_mirror_url method m')
         <= String.length (get_mirror_url method m)) /\
    (let r := get_s3_session w url method st in
     s3_client_cache (snd r) !! (Some n, method) = Some (fst r) /\
     (s3_client_cache st !! (Some n, method) = None ->
        client_session (fst r)
          = fst (get_mirror_s3_connection_info w (Some m) method))).
Proof.
  cbv zeta. intros (n0 & m0 & Hin0 & Hp0).
  destruct (select_mirror_some (MirrorCollection w) (geturl w url) method)
    as [[n m] Hsel].
  { exists (n0, m0). split; [exact Hin0 | apply prefix_starts_with, Hp0]. }
  destruct (select_mirror_position _ _ _ _ Hsel)
    as (before & after & Hall & Hm & Hb & Ha).
  exists n, m. split; [exact Hsel|].
  split; [rewrite Hall; apply List.in_or_app; right; left; reflexivity|].
  split; [apply prefix_starts_with, Hm|].
  split.
  - intros n' m' Hin Hp. apply prefix_starts_with in Hp.
    rewrite Hall in Hin. apply List.in_app_or in Hin as [Hin|[Heq|Hin]].
    + rewrite List.Forall_forall in Hb. specialize (Hb _ Hin Hp).
      unfold url_length in Hb. simpl in Hb. lia.
    + injection Heq as -> ->. lia.
    + rewrite List.Forall_forall in Ha. exact (Ha _ Hin Hp).
  - unfold get_s3_session. cbv zeta. rewrite Hsel. simpl.
    destruct (s3_client_cache st !! (Some n, method)) as [c|] eqn:Hc; simpl.
    + split; [exact Hc | discriminate].
    + destruct (get_mirror_s3_connection_info w (Some m) method) as [conn args].
      simpl. split; [apply lookup_insert_eq | reflexivity].
Qed.

Lemma longest_prefix_mirror_selected_witness :
  exists n m,
    select_mirror
      [("a", plain_mirror "https://x/bucket"); ("b", plain_mirror "https://x/bucket/sub")]
      "https://x/bucket/sub/file.txt" "fetch" = Some (n, m) /\
    n = "b".
Proof.
  destruct (longest_prefix_mirror_selected
              (sample_world [("a", plain_mirror "https://x/bucket");
                             ("b", plain_mirror "https://x/bucket/sub")] None)
              "https://x/bucket/sub/file.txt" "fetch" initial_state)
    as (n & m & Hsel & _).
  - exists "a", (plain_mirror "https://x/bucket"). split.
    + left. reflexivity.
    + exists "/sub/file.txt". reflexivity.
  - exists n, m. split; [exact Hsel|].
    vm_compute in Hsel. injection Hsel as <- _. reflexivity.
Defined.

(** Two ways of splitting one list around an element: at the same place,
    or one element stands before the other. *)
Lemma app_cons_cases {A : Type} (l1 : list A) : forall l1' x x' l2 l2',
  (l1 ++ x :: l2 = l1' ++ x' :: l2')%list ->
  (l1 = l1' /\ x = x' /\ l2 = l2') \/
  (In x l1' /\ In x' l2) \/
  (In x' l1 /\ In x l2').
Proof.
  induction l1 as [|a l1 IH]; intros [|b l1'] x x' l2 l2' E; simpl in E.
  - injection E as -> ->. left. auto.
  - injection E as -> ->. right. left.
    split; [left; reflexivity | apply List.in_or_app; right; left; reflexivity].
  - injection E as -> <-. right. right.
    split; [left; reflexivity | apply List.in_or_app; right; left; reflexivity].
  - injection E as -> E. destruct (IH _ _ _ _ _ E) as [(-> & -> & ->)|[[H1 H2]|[H1 H2]]].
    + left. auto.
    + right. left. split; [right; exact H1 | exact H2].
    + right. right. split; [right; exact H1 | exact H2].
Qed.

(** C9: the first mirror, in the iteration order of the collection, among
    the matching mirrors of greatest url length is the one
    [get_s3_session] selects and caches the client under: if a matching
    mirror has every matching mirror before it strictly shorter and no
    matching mirror after it longer (mirrors of equal length may follow),
    the selection is that mirror.  The configuration and the inputs thus
    determine the selected mirror. *)
Theorem first_of_longest_mirrors_selected (w : World) (url method : string)
    (before after : list (string * Mirror)) (n : string) (m : Mirror) :
  MirrorCollection w = (before ++ (n, m) :: after)%list ->
  starts_with (geturl w url) (get_mirror_url method m) ->
  (forall n' m', In (n', m') before ->
     starts_with (geturl w url) (get_mirror_url method m') ->
     String.length (get_mirror_url method m')
       < String.length (get_mirror_url method m)) ->
  (forall n' m', In (n', m') after ->
     starts_with (geturl w url) (get_mirror_url method m') ->
     String.length (get_mirror_url method m')
       <= String.length (get_mirror_url method m)) ->
  select_mirror (MirrorCollection w) (geturl w url) method = Some (n, m) /\
  cache_key (MirrorCollection w) (geturl w url) method = (Some n, method) /\
  (forall st,
     s3_client_cache (snd (get_s3_session w url method st)) !! (Some n, method)
       = Some (fst (get_s3_session w url method st))).
Proof.
  intros Hall Hm Hbefore Hafter.
  assert (select_mirror (MirrorCollection w) (geturl w url) method = Some (n, m))
    as Hsel.
  { destruct (select_mirror_some (MirrorCollection w) (geturl w url) method)
      as [[n0 m0] Hsel].
    { exists (n, m). split.
      - rewrite Hall. apply List.in_or_app. right. left. reflexivity.
      - apply prefix_starts_with, Hm. }
    rewrite Hsel. f_equal.
    destruct (select_mirror_position _ _ _ _ Hsel)
      as (b0 & a0 & Hall0 & Hm0 & Hb0 & Ha0).
    rewrite List.Forall_forall in Hb0, Ha0.
    apply prefix_starts_with in Hm0. simpl in Hm0.
    pose proof (proj2 (prefix_starts_with _ _) Hm) as Hmb.
    pose proof (proj2 (prefix_starts_with _ _) Hm0) as Hm0b.
    rewrite Hall in Hall0.
    destruct (app_cons_cases _ _ _ _ _ _ Hall0) as [(_ & E & _)|[[H1 H2]|[H1 H2]]].
    - symmetry. exact E.
    - exfalso. specialize (Hb0 _ H1 Hmb). specialize (Hafter _ _ H2 Hm0).
      unfold url_length in Hb0. simpl in Hb0. lia.
    - exfalso. specialize (Hbefore _ _ H1 Hm0). specialize (Ha0 _ H2 Hmb).
      unfold url_length in Ha0. simpl in Ha0. lia. }
  split; [exact Hsel|].
  split; [unfold cache_key; rewrite Hsel; reflexivity|].
  intros st. unfold get_s3_session. cbv zeta. rewrite Hsel. simpl.
  destruct (s3_client_cache st !! (Some n, method)) as [c|] eqn:Hc; simpl.
  - exact Hc.
  - destruct (get_mirror_s3_connection_info w (Some m) method) as [conn args].
    simpl. apply lookup_insert_eq.
Qed.

Lemma first_of_longest_mirrors_selected_witness :
  select_mirror
    [("short", plain_mirror "s3://b"); ("first", plain_mirror "s3://bucket");
     ("second", plain_mirror "s3://bucket")] "s3://bucket/pkg" "fetch"
  = Some ("first", plain_mirror "s3://bucket").
Proof.
  apply (first_of_longest_mirrors_selected
           (sample_world [("short", plain_mirror "s3://b");
                          ("first", plain_mirror "s3://bucket");
                          ("second", plain_mirror "s3://bucket")] None)
           "s3://bucket/pkg" "fetch"
           [("short", plain_mirror "s3://b")]
           [("second", plain_mirror "s3://bucket")]
           "first" (plain_mirror "s3://bucket")).
  - reflexivity.
  - exists "/pkg". reflexivity.
  - intros n' m' [[= <- <-]|[]] _. simpl. lia.
  - intros n' m' [[= <- <-]|[]] _. simpl. lia.
Defined.

(** ** The client cache *)

Section Cache.

Lemma get_s3_session_hit w url method st client :
  s3_client_cache st !! cache_key (MirrorCollection w) (geturl w url) method
    = Some client ->
  get_s3_session w url method st = (client, st).
Proof. unfold get_s3_session, cache_key. cbv zeta. intros ->. reflexivity. Qed.

(** What a call does when the key is not cached yet. *)
Lemma get_s3_session_miss w url method st :
  let key := cache_key (MirrorCollection w) (geturl w url) method in
  let info := get_mirror_s3_connection_info w
                (snd <$> select_mirror (MirrorCollection w) (geturl w url) method)
                method in
  s3_client_cache st !! key = None ->
  let r := get_s3_session w url method st in
  client_id (fst r) = constructed st /\
  client_session (fst r) = fst info /\
  client_args (fst r)
    = (if negb (get_credentials w (fst info))
       then <["config" := ArgConfigUnsigned]> (snd info) else snd info) /\
  s3_client_cache (snd r) = <[key := fst r]> (s3_client_cache st) /\
  constructed (snd r) = S (constructed st).
Proof.
  unfold get_s3_session, cache_key. cbv zeta. intros ->.
  destruct (get_mirror_s3_connection_info _ _ _) as [conn args]. simpl.
  repeat split.
Qed.

Lemma cache_key_method all url_str method :
  snd (cache_key all url_str method) = method.
Proof. reflexivity. Qed.

(** A cached client stays where it is. *)
Lemma get_s3_session_keeps w url method st k (client : Client) :
  s3_client_cache st !! k = Some client ->
  s3_client_cache (snd (get_s3_session w url method st)) !! k = Some client.
Proof.
  intros Hk.
  destruct (s3_client_cache st
              !! cache_key (MirrorCollection w) (geturl w url) method)
    as [c|] eqn:Hc.
  - rewrite (get_s3_session_hit _ _ _ _ _ Hc). exact Hk.
  - destruct (get_s3_session_miss w url method st Hc) as (_ & _ & _ & -> & _).
    rewrite lookup_insert_ne; [exact Hk | congruence].
Qed.

Lemma run_calls_keeps calls : forall st k (client : Client),
  s3_client_cache st !! k = Some client ->
  s3_client_cache (run_calls calls st) !! k = Some client.
Proof.
  induction calls as [|c calls IH]; intros st k client Hk; simpl; [exact Hk|].
  apply IH, get_s3_session_keeps, Hk.
Qed.

(** After a call, its client is the one cached under its key. *)
Lemma get_s3_session_cached w url method st :
  s3_client_cache (snd (get_s3_session w url method st))
    !! cache_key (MirrorCollection w) (geturl w url) method
  = Some (fst (get_s3_session w url method st)).
Proof.
  destruct (s3_client_cache st
              !! cache_key (MirrorCollection w) (geturl w url) method)
    as [c|] eqn:Hc.
  - rewrite (get_s3_session_hit _ _ _ _ _ Hc). exact Hc.
  - destruct (get_s3_session_miss w url method st Hc) as (_ & _ & _ & -> & _).
    apply lookup_insert_eq.
Qed.

Lemma reachable_run calls : forall st,
  reachable st -> reachable (run_calls calls st).
Proof.
  induction calls as [|c calls IH]; intros st Hst; simpl; [exact Hst|].
  apply IH. constructor. exact Hst.
Qed.

(** Every cached client was constructed once: the cache has as many
    entries as clients were constructed. *)
Lemma reachable_one_client_per_key st :
  reachable st -> size (s3_client_cache st) = constructed st.
Proof.
  induction 1 as [|w url method st Hst IH]; [reflexivity|].
  destruct (s3_client_cache st
              !! cache_key (MirrorCollection w) (geturl w url) method)
    as [c|] eqn:Hc.
  - rewrite (get_s3_session_hit _ _ _ _ _ Hc). exact IH.
  - destruct (get_s3_session_miss w url method st Hc) as (_ & _ & _ & -> & ->).
    rewrite map_size_insert_None by exact Hc. congruence.
Qed.


End Cache.

(** C3: two calls that resolve to the same cache key (same matched mirror
    name or none, same intent) return the identical client, the second
    one without constructing anything, whatever calls came in between and
    whatever the mirror configuration has become; no call replaces a
    cached client, and the cache holds exactly one client per key for
    which one was constructed. *)
Theorem cached_client_reused (w1 w2 : World) (url1 url2 method : string)
    (between : list Call) (st : State) :
  reachable st ->
  cache_key (MirrorCollection w1) (geturl w1 url1) method
    = cache_key (MirrorCollection w2) (geturl w2 url2) method ->
  let r1 := get_s3_session w1 url1 method st in
  let st' := run_calls between (snd r1) in
  let r2 := get_s3_session w2 url2 method st' in
  fst r2 = fst r1 /\
  snd r2 = st' /\
  constructed (snd r2) = constructed st' /\
  (forall k client, s3_client_cache st !! k = Some client ->
     s3_client_cache (snd r2) !! k = Some client) /\
  size (s3_client_cache (snd r2)) = constructed (snd r2).
Proof.
  intros Hst Hkey. cbv zeta.
  pose proof (get_s3_session_cached w1 url1 method st) as Hc.
  apply (run_calls_keeps between) in Hc. rewrite Hkey in Hc.
  rewrite (get_s3_session_hit _ _ _ _ _ Hc). simpl.
  repeat split.
  - intros k client Hk. apply run_calls_keeps, get_s3_session_keeps, Hk.
  - apply reachable_one_client_per_key, reachable_run. constructor. exact Hst.
Qed.

Lemma cached_client_reused_witness :
  let w1 := sample_world [("a", plain_mirror "s3://bucket")] None in
  let w2 := sample_world [("a", token_pair_mirror)] (Some "s3.example.com") in
  let between :=
    [{| call_world := w2; call_url := "s3://other"; call_method := "push" |}] in
  let r1 := get_s3_session w1 "s3://bucket/x" "fetch" initial_state in
  let st' := run_calls between (snd r1) in
  let r2 := get_s3_session w2 "s3://bucket/y" "fetch" st' in
  fst r2 = fst r1 /\ snd r2 = st' /\ constructed (snd r2) = 2.
Proof.
  cbv zeta.
  destruct (cached_client_reused
              (sample_world [("a", plain_mirror "s3://bucket")] None)
              (sample_world [("a", token_pair_mirror)] (Some "s3.example.com"))
              "s3://bucket/x" "s3://bucket/y" "fetch"
              [{| call_world :=
                    sample_world [("a", token_pair_mirror)] (Some "s3.example.com");
                  call_url := "s3://other"; call_method := "push" |}]
              initial_state reachable_initial eq_refl)
    as (H1 & H2 & _).
  split; [exact H1|]. split; [exact H2|]. reflexivity.
Defined.


(** C6: a call that constructs a client (its key is not cached) passes
    [config] with the unsigned signature version exactly when the session
    it built has no credentials; when the session has credentials the
    client arguments are those derived from the mirror, with no [config]
    entry. *)
Theorem unsigned_config_without_credentials (w : World) (url method : string)
    (st : State) :
  s3_client_cache st !! cache_key (MirrorCollection w) (geturl w url) method
    = None ->
  let client := fst (get_s3_session w url method st) in
  let info := get_mirror_s3_connection_info w
                (snd <$> select_mirror (MirrorCollection w) (geturl w url) method)
                method in
  client_session client = fst info /\
  (get_credentials w (client_session client) = false ->
     client_args client !! "config" = Some ArgConfigUnsigned) /\
  (get_credentials w (client_session client) = true ->
     client_args client !! "config" = None /\ client_args client = snd info).
Proof.
  intros Hc. cbv zeta.
  destruct (get_s3_session_miss w url method st Hc) as (_ & Hs & Ha & _).
  rewrite Hs, Ha. split; [reflexivity|].
  split; intros ->; simpl.
  - apply lookup_insert_eq.
  - split; [apply client_args_no_config | reflexivity].
Qed.

Lemma unsigned_config_without_credentials_witness :
  client_args
    (fst (get_s3_session (sample_world [("a", plain_mirror "s3://bucket")] None)
            "s3://bucket/x" "fetch" initial_state)) !! "config"
    = Some ArgConfigUnsigned /\
  client_args
    (fst (get_s3_session (sample_world [("a", token_pair_mirror)] None)
            "s3://bucket/x" "fetch" initial_state)) !! "config"
    = None.
Proof.
  split.
  - apply (unsigned_config_without_credentials
             (sample_world [("a", plain_mirror "s3://bucket")] None)
             "s3://bucket/x" "fetch" initial_state); reflexivity.
  - apply (unsigned_config_without_credentials
             (sample_world [("a", token_pair_mirror)] None)
             "s3://bucket/x" "fetch" initial_state); reflexivity.
Defined.

(** * Further properties of the module *)

(** ** Endpoint normalization *)

Lemma https_prefix_sanitized (e : string) :
  UrlParse.sanitize ("https://" ++ e)
  = "https" ++ ":" ++ UrlParse.remove_unsafe ("//" ++ e).
Proof.
  change ("https://" ++ e) with ("https" ++ ":" ++ ("//" ++ e)).
  apply sanitize_scheme_colon. split; reflexivity.
Qed.

Lemma https_prefix_scheme (e : string) :
  UrlParse.urlparse_scheme ("https://" ++ e) "" = "https".
Proof.
  unfold UrlParse.urlparse_scheme, UrlParse.urlsplit_scheme. cbv zeta.
  change (UrlParse.remove_unsafe (PyStr.lstrip UrlParse.c0_control_or_space
                                    ("https://" ++ e)))
    with (UrlParse.sanitize ("https://" ++ e)).
  rewrite https_prefix_sanitized.
  change ("https" ++ ":" ++ UrlParse.remove_unsafe ("//" ++ e))
    with ("https" ++ String ":" (UrlParse.remove_unsafe ("//" ++ e))).
  rewrite (find_app_at ":" "https" _ eq_refl).
  rewrite take_app_length. reflexivity.
Qed.

(** The value [_parse_s3_endpoint_url] computes always carries a scheme,
    and computing it again from that value changes nothing. *)
Lemma parse_s3_endpoint_url_idempotent (endpoint_url : string) :
  _parse_s3_endpoint_url (_parse_s3_endpoint_url endpoint_url)
    = _parse_s3_endpoint_url endpoint_url /\
  has_explicit_scheme (_parse_s3_endpoint_url endpoint_url) /\
  UrlParse.urlparse_scheme (_parse_s3_endpoint_url endpoint_url) ""
    = (if PyStr.nonempty (UrlParse.urlparse_scheme endpoint_url "")
       then UrlParse.urlparse_scheme endpoint_url "" else "https").
Proof.
  assert (PyStr.nonempty
            (UrlParse.urlparse_scheme (_parse_s3_endpoint_url endpoint_url) "")
          = true /\
          UrlParse.urlparse_scheme (_parse_s3_endpoint_url endpoint_url) ""
          = (if PyStr.nonempty (UrlParse.urlparse_scheme endpoint_url "")
             then UrlParse.urlparse_scheme endpoint_url "" else "https"))
    as [Hne Hs].
  { unfold _parse_s3_endpoint_url.
    destruct (PyStr.nonempty (UrlParse.urlparse_scheme endpoint_url "")) eqn:H;
      cbn [negb].
    - rewrite H. split; reflexivity.
    - change (String.concat "://" ["https"; endpoint_url])
        with ("https://" ++ endpoint_url).
      rewrite https_prefix_scheme. split; reflexivity. }
  split; [|split; [apply urlparse_scheme_detects, Hne | exact Hs]].
  unfold _parse_s3_endpoint_url at 1. rewrite Hne. reflexivity.
Qed.

(** ** Shape of the derived parameters *)

Section ParameterShape.
Import PyStr.

Lemma set_if_truthy_dom k v (d : gmap string string) :
  dom (set_if_truthy k v d) ⊆ {[k]} ∪ dom d.
Proof.
  unfold set_if_truthy. destruct v as [s|]; [destruct (nonempty s)|];
    rewrite ?dom_insert_L; set_solver.
Qed.

Lemma set_access_pair_dom ap (d : gmap string string) :
  dom (set_access_pair ap d)
    ⊆ {["aws_access_key_id"; "aws_secret_access_key"]} ∪ dom d.
Proof.
  destruct (complete_pair ap) as [[a b]|] eqn:E.
  - rewrite (set_access_pair_complete _ _ _ _ E), !dom_insert_L. set_solver.
  - rewrite (set_access_pair_incomplete _ _ E). set_solver.
Qed.

Lemma set_if_truthy_values k v (d : gmap string string) :
  map_Forall (fun _ x => x <> "") d ->
  map_Forall (fun _ x => x <> "") (set_if_truthy k v d).
Proof.
  intros Hd. unfold set_if_truthy.
  destruct v as [s|]; [destruct (nonempty s) eqn:Hs|]; try exact Hd.
  apply map_Forall_insert_2; [apply nonempty_true_iff, Hs | exact Hd].
Qed.

Lemma set_access_pair_values ap (d : gmap string string) :
  map_Forall (fun _ x => x <> "") d ->
  map_Forall (fun _ x => x <> "") (set_access_pair ap d).
Proof.
  intros Hd. unfold set_access_pair.
  destruct ap as [[[a|] [b|]]|]; try exact Hd.
  destruct (nonempty a) eqn:Ha, (nonempty b) eqn:Hb; simpl; try exact Hd.
  repeat apply map_Forall_insert_2;
    [apply nonempty_true_iff, Hb | apply nonempty_true_iff, Ha | exact Hd].
Qed.

(** The session parameters, for a mirror or for none. *)
Lemma connection_shape w mirror method :
  dom (fst (get_mirror_s3_connection_info w mirror method))
    ⊆ {["aws_session_token"; "aws_access_key_id";
        "aws_secret_access_key"; "profile_name"]} /\
  map_Forall (fun _ x => x <> "")
    (fst (get_mirror_s3_connection_info w mirror method)).
Proof.
  destruct mirror as [m|].
  - rewrite connection_of_mirror. split.
    + pose proof (set_if_truthy_dom "profile_name" (get_profile m method)
                    (set_access_pair (get_access_pair m method)
                       (set_if_truthy "aws_session_token"
                          (get_access_token m method) ∅))) as H1.
      pose proof (set_access_pair_dom (get_access_pair m method)
                    (set_if_truthy "aws_session_token"
                       (get_access_token m method) ∅)) as H2.
      pose proof (set_if_truthy_dom "aws_session_token"
                    (get_access_token m method) ∅) as H3.
      set_solver.
    + apply set_if_truthy_values, set_access_pair_values, set_if_truthy_values.
      apply map_Forall_empty.
  - rewrite connection_without_mirror. split.
    + set_solver.
    + apply map_Forall_empty.
Qed.

Lemma client_args_use_ssl w mirror method :
  snd (get_mirror_s3_connection_info w mirror method) !! "use_ssl"
    = Some (ArgBool (verify_ssl w)).
Proof.
  unfold get_mirror_s3_connection_info.
  destruct mirror as [m|]; cbv zeta beta iota;
    match goal with |- context [match ?ep with Some _ => _ | None => _ end] =>
      destruct ep as [e|]; [destruct (nonempty e)|] end;
    simpl; rewrite ?lookup_insert_ne by congruence; reflexivity.
Qed.

Lemma client_args_dom w mirror method :
  dom (snd (get_mirror_s3_connection_info w mirror method))
    ⊆ {["use_ssl"; "endpoint_url"]}.
Proof.
  unfold get_mirror_s3_connection_info.
  destruct mirror as [m|]; cbv zeta beta iota;
    match goal with |- context [match ?ep with Some _ => _ | None => _ end] =>
      destruct ep as [e|]; [destruct (nonempty e)|] end;
    simpl; rewrite ?dom_insert_L, dom_singleton_L; set_solver.
Qed.

End ParameterShape.

(** X2: whatever the mirror (or none) and the intent, the session
    parameters use no key beyond [aws_session_token],
    [aws_access_key_id], [aws_secret_access_key] and [profile_name], and
    the client arguments none beyond [use_ssl] and [endpoint_url];
    [use_ssl] is always present and is the configured [verify_ssl]. *)
Theorem connection_info_keys (w : World) (mirror : option Mirror)
    (method : string) :
  dom (fst (get_mirror_s3_connection_info w mirror method))
    ⊆ {["aws_session_token"; "aws_access_key_id";
        "aws_secret_access_key"; "profile_name"]} /\
  dom (snd (get_mirror_s3_connection_info w mirror method))
    ⊆ {["use_ssl"; "endpoint_url"]} /\
  snd (get_mirror_s3_connection_info w mirror method) !! "use_ssl"
    = Some (ArgBool (verify_ssl w)).
Proof.
  split; [apply connection_shape|].
  split; [apply client_args_dom | apply client_args_use_ssl].
Qed.

(** X3: the key pair goes in whole or not at all: [aws_access_key_id] is
    among the session parameters exactly when [aws_secret_access_key]
    is. *)
Theorem key_pair_all_or_nothing (w : World) (mirror : option Mirror)
    (method : string) :
  let conn := fst (get_mirror_s3_connection_info w mirror method) in
  is_Some (conn !! "aws_access_key_id")
  <-> is_Some (conn !! "aws_secret_access_key").
Proof.
  cbv zeta. destruct mirror as [m|].
  - rewrite connection_of_mirror, !set_if_truthy_other by congruence.
    destruct (complete_pair (get_access_pair m method)) as [[a b]|] eqn:E.
    + rewrite (set_access_pair_complete _ _ _ _ E).
      rewrite lookup_insert_eq, lookup_insert_ne, lookup_insert_eq by congruence.
      split; eauto.
    + rewrite (set_access_pair_incomplete _ _ E).
      rewrite !set_if_truthy_other by congruence. reflexivity.
  - rewrite connection_without_mirror, !lookup_empty. reflexivity.
Qed.

(** X4: no session parameter is ever the empty string: an empty token,
    key component or profile is dropped, not passed on. *)
Theorem connection_values_nonempty (w : World) (mirror : option Mirror)
    (method key value : string) :
  fst (get_mirror_s3_connection_info w mirror method) !! key = Some value ->
  value <> "".
Proof.
  intros H. exact (proj2 (connection_shape w mirror method) key value H).
Qed.

Lemma connection_values_nonempty_witness :
  "default" <> "".
Proof.
  apply (connection_values_nonempty (sample_world [] None) (Some profile_mirror)
           "fetch" "profile_name" "default").
  reflexivity.
Defined.

(** X5: an [endpoint_url] client argument, when there is one, is the
    normalization of a non-empty endpoint and carries a scheme. *)
Theorem endpoint_argument_has_scheme (w : World) (mirror : option Mirror)
    (method : string) (v : arg_value) :
  snd (get_mirror_s3_connection_info w mirror method) !! "endpoint_url" = Some v ->
  exists e, e <> "" /\ v = ArgStr (_parse_s3_endpoint_url e) /\
            has_explicit_scheme (_parse_s3_endpoint_url e).
Proof.
  rewrite client_args_endpoint.
  match goal with |- context [match ?ep with Some _ => _ | None => _ end] =>
    destruct ep as [e|]; [|discriminate] end.
  destruct (PyStr.nonempty e) eqn:He; [|discriminate].
  intros [= <-]. exists e. split; [apply nonempty_true_iff, He|].
  split; [reflexivity|].
  destruct (PyStr.nonempty (UrlParse.urlparse_scheme e "")) eqn:Hs;
    unfold _parse_s3_endpoint_url; rewrite Hs; cbn [negb].
  - apply urlparse_scheme_detects, Hs.
  - apply urlparse_scheme_detects.
    change (String.concat "://" ["https"; e]) with ("https://" ++ e).
    rewrite https_prefix_scheme. reflexivity.
Qed.

Lemma endpoint_argument_has_scheme_witness :
  exists e, e <> "" /\
    ArgStr "https://s3.example.com" = ArgStr (_parse_s3_endpoint_url e) /\
    has_explicit_scheme (_parse_s3_endpoint_url e).
Proof.
  apply (endpoint_argument_has_scheme (sample_world [] None)
           (Some token_pair_mirror) "fetch" (ArgStr "https://s3.example.com")).
  reflexivity.
Defined.

(** ** Matching and selection *)

Section SelectionFacts.



(** Two prefixes of one string: the shorter is a prefix of the longer. *)
Lemma starts_with_shorter q : forall s p,
  starts_with s p -> starts_with s q ->
  String.length q <= String.length p -> starts_with p q.
Proof.
  induction q as [|c q IH]; intros s p [t Ht] [u Hu] Hl.
  - exists p. reflexivity.
  - destruct p as [|d p]; simpl in Hl; [lia|].
    subst s. simpl in Hu. injection Hu as -> Hu.
    destruct (IH (p ++ t) p) as [v Hv]; [exists t; reflexivity | exists u; exact Hu | lia |].
    exists v. simpl. congruence.
Qed.

Lemma string_length_app (s t : string) :
  String.length (s ++ t) = String.length s + String.length t.
Proof. induction s as [|c s IH]; simpl; [reflexivity | rewrite IH; reflexivity]. Qed.

Lemma starts_with_same_length s p q :
  starts_with s p -> starts_with s q ->
  String.length q = String.length p -> q = p.
Proof.
  intros Hp Hq Hl.
  destruct (starts_with_shorter q s p Hp Hq) as [v Hv]; [lia|].
  subst p. rewrite string_length_app in Hl.
  destruct v; [|simpl in Hl; lia].
  clear. induction q as [|c q IH]; simpl; congruence.
Qed.

End SelectionFacts.



(** X7: a mirror whose url for the intent is the empty string matches
    every target url, so with such a mirror configured some mirror is
    always selected and the cache key always has a mirror name. *)
Theorem empty_mirror_url_matches_all (all_mirrors : list (string * Mirror))
    (url_str method name : string) (m : Mirror) :
  In (name, m) all_mirrors -> get_mirror_url method m = "" ->
  exists n, fst (cache_key all_mirrors url_str method) = Some n.
Proof.
  intros Hin Hm.
  destruct (select_mirror_some all_mirrors url_str method) as [[n m'] Hsel].
  { exists (name, m). split; [exact Hin|].
    unfold mirror_matches. simpl. rewrite Hm. destruct url_str; reflexivity. }
  exists n. unfold cache_key. rewrite Hsel. reflexivity.
Qed.

Lemma empty_mirror_url_matches_all_witness :
  exists n, fst (cache_key [("blank", plain_mirror "")] "s3://any/where" "fetch")
            = Some n.
Proof.
  apply (empty_mirror_url_matches_all [("blank", plain_mirror "")]
           "s3://any/where" "fetch" "blank" (plain_mirror ""));
    [left; reflexivity | reflexivity].
Defined.

(** X8: the url of the selected mirror extends the url of every matching
    mirror, and a matching mirror whose url is as long as the selected
    one has the very same url: a tie is only possible between mirrors
    configured with one url. *)
Theorem selected_url_extends_matches (all_mirrors : list (string * Mirror))
    (url_str method n n' : string) (m m' : Mirror) :
  select_mirror all_mirrors url_str method = Some (n, m) ->
  In (n', m') all_mirrors ->
  starts_with url_str (get_mirror_url method m') ->
  starts_with (get_mirror_url method m) (get_mirror_url method m') /\
  (String.length (get_mirror_url method m')
     = String.length (get_mirror_url method m) ->
   get_mirror_url method m' = get_mirror_url method m).
Proof.
  intros Hsel Hin Hp'.
  destruct (select_mirror_position _ _ _ _ Hsel)
    as (before & after & Hall & Hm & Hb & Ha).
  apply prefix_starts_with in Hm. simpl in Hm.
  assert (String.length (get_mirror_url method m')
          <= String.length (get_mirror_url method m)) as Hle.
  { pose proof (proj2 (prefix_starts_with _ _) Hp') as Hp.
    rewrite List.Forall_forall in Hb, Ha.
    rewrite Hall in Hin. apply List.in_app_or in Hin as [Hin|[Heq|Hin]].
    - specialize (Hb _ Hin Hp). unfold url_length in Hb. simpl in Hb. lia.
    - injection Heq as _ ->. lia.
    - exact (Ha _ Hin Hp). }
  split.
  - exact (starts_with_shorter _ _ _ Hm Hp' Hle).
  - intros Hl. exact (starts_with_same_length _ _ _ Hm Hp' Hl).
Qed.

Lemma selected_url_extends_matches_witness :
  starts_with "https://x/bucket/sub" "https://x/bucket" /\
  (String.length "https://x/bucket" = String.length "https://x/bucket/sub" ->
   "https://x/bucket" = "https://x/bucket/sub").
Proof.
  apply (selected_url_extends_matches
           [("a", plain_mirror "https://x/bucket");
            ("b", plain_mirror "https://x/bucket/sub")]
           "https://x/bucket/sub/file.txt" "fetch" "b" "a"
           (plain_mirror "https://x/bucket/sub") (plain_mirror "https://x/bucket"));
    [reflexivity | left; reflexivity | exists "/sub/file.txt"; reflexivity].
Defined.

(** X9: a mirror whose url is not a prefix of the target url has no
    influence on the selection, wherever it stands in the collection. *)
Theorem unmatched_mirror_irrelevant (before after : list (string * Mirror))
    (nm : string * Mirror) (url_str method : string) :
  ~ starts_with url_str (get_mirror_url method (snd nm)) ->
  select_mirror (before ++ nm :: after)%list url_str method
    = select_mirror (before ++ after)%list url_str method.
Proof.
  intros Hno. unfold select_mirror, matching_mirrors.
  rewrite !List.filter_app. simpl.
  destruct (mirror_matches url_str method nm) eqn:Hm; [|reflexivity].
  exfalso. apply Hno, prefix_starts_with, Hm.
Qed.

Lemma unmatched_mirror_irrelevant_witness :
  select_mirror
    ([("a", plain_mirror "s3://bucket")] ++ ("z", plain_mirror "s3://zzz")
       :: [("b", plain_mirror "s3://bucket/sub")])%list "s3://bucket/sub/x" "fetch"
  = select_mirror
      ([("a", plain_mirror "s3://bucket")] ++ [("b", plain_mirror "s3://bucket/sub")])%list
      "s3://bucket/sub/x" "fetch".
Proof.
  apply (unmatched_mirror_irrelevant [("a", plain_mirror "s3://bucket")]
           [("b", plain_mirror "s3://bucket/sub")] ("z", plain_mirror "s3://zzz")
           "s3://bucket/sub/x" "fetch").
  intros [t Ht]. discriminate Ht.
Defined.

(** ** Clients and the cache *)

Section CacheFacts.

(** Identities of cached clients are below the construction counter and
    distinct for distinct keys. *)
Lemma reachable_client_ids st :
  reachable st ->
  (forall k client, s3_client_cache st !! k = Some client ->
     client_id client < constructed st) /\
  (forall k1 k2 c1 c2,
     s3_client_cache st !! k1 = Some c1 -> s3_client_cache st !! k2 = Some c2 ->
     client_id c1 = client_id c2 -> k1 = k2).
Proof.
  induction 1 as [|w url method st Hst [IHlt IHinj]].
  - split; intros *; simpl; rewrite lookup_empty; discriminate.
  - destruct (s3_client_cache st
                !! cache_key (MirrorCollection w) (geturl w url) method)
      as [c|] eqn:Hc.
    + rewrite (get_s3_session_hit _ _ _ _ _ Hc). simpl. split; assumption.
    + destruct (get_s3_session_miss w url method st Hc)
        as (Hid & _ & _ & Hcache & Hn).
      rewrite Hcache, Hn. split.
      * intros k client. rewrite lookup_insert. case_decide.
        -- intros [= <-]. lia.
        -- intros Hk. specialize (IHlt _ _ Hk). lia.
      * intros k1 k2 c1 c2. rewrite !lookup_insert.
        repeat case_decide; try congruence.
        -- intros [= <-] Hk Heq. specialize (IHlt _ _ Hk). lia.
        -- intros Hk [= <-] Heq. specialize (IHlt _ _ Hk). lia.
        -- apply IHinj.
Qed.

Lemma get_s3_session_constructed w url method st :
  constructed st <= constructed (snd (get_s3_session w url method st))
  /\ constructed (snd (get_s3_session w url method st)) <= S (constructed st).
Proof.
  destruct (s3_client_cache st
              !! cache_key (MirrorCollection w) (geturl w url) method)
    as [c|] eqn:Hc.
  - rewrite (get_s3_session_hit _ _ _ _ _ Hc). simpl. lia.
  - destruct (get_s3_session_miss w url method st Hc) as (_ & _ & _ & _ & ->). lia.
Qed.

Lemma get_s3_session_miss_fields w url method st :
  s3_client_cache st !! cache_key (MirrorCollection w) (geturl w url) method
    = None ->
  client_service (fst (get_s3_session w url method st)) = "s3" /\
  client_ClientError (fst (get_s3_session w url method st)) = true.
Proof.
  unfold get_s3_session, cache_key. cbv zeta. intros ->.
  destruct (get_mirror_s3_connection_info _ _ _) as [conn args]. simpl.
  split; reflexivity.
Qed.

(** What holds of every client in the cache. *)
Lemma reachable_cached_client st :
  reachable st ->
  forall k client, s3_client_cache st !! k = Some client ->
    client_service client = "s3" /\
    client_ClientError client = true /\
    (exists b, client_args client !! "use_ssl" = Some (ArgBool b)) /\
    dom (client_args client) ⊆ {["use_ssl"; "endpoint_url"; "config"]} /\
    dom (client_session client)
      ⊆ {["aws_session_token"; "aws_access_key_id";
          "aws_secret_access_key"; "profile_name"]} /\
    map_Forall (fun _ x => x <> "") (client_session client).
Proof.
  induction 1 as [|w url method st Hst IH]; intros k client.
  - simpl. rewrite lookup_empty. discriminate.
  - destruct (s3_client_cache st
                !! cache_key (MirrorCollection w) (geturl w url) method)
      as [c|] eqn:Hc.
    + rewrite (get_s3_session_hit _ _ _ _ _ Hc). apply IH.
    + pose proof (get_s3_session_miss w url method st Hc)
        as (_ & Hs & Ha & Hcache & _).
      rewrite Hcache, lookup_insert. case_decide; [|apply IH].
      intros [= <-]. rewrite Hs, Ha.
      set (info := get_mirror_s3_connection_info w _ method).
      pose proof (client_args_use_ssl w
                    (snd <$> select_mirror (MirrorCollection w) (geturl w url) method)
                    method) as Hssl.
      pose proof (client_args_dom w
                    (snd <$> select_mirror (MirrorCollection w) (geturl w url) method)
                    method) as Hdom.
      pose proof (connection_shape w
                    (snd <$> select_mirror (MirrorCollection w) (geturl w url) method)
                    method) as [Hcd Hcv].
      fold info in Hssl, Hdom, Hcd, Hcv.
      destruct (get_s3_session_miss_fields w url method st Hc) as [Hsv Hce].
      split; [exact Hsv|]. split; [exact Hce|].
      split; [|split; [|split; [exact Hcd | exact Hcv]]].
      * exists (verify_ssl w).
        destruct (negb _); [rewrite lookup_insert_ne by congruence|]; exact Hssl.
      * destruct (negb _); [rewrite dom_insert_L|]; set_solver.
Qed.

End CacheFacts.

(** X10: calls that resolve to different cache keys (another mirror name,
    or another intent) get different client objects, whatever calls come
    in between: a client made for one mirror and intent is never handed
    out for another. *)
Theorem different_keys_different_clients (w1 w2 : World)
    (url1 url2 method1 method2 : string) (between : list Call) (st : State) :
  reachable st ->
  cache_key (MirrorCollection w1) (geturl w1 url1) method1
    <> cache_key (MirrorCollection w2) (geturl w2 url2) method2 ->
  let r1 := get_s3_session w1 url1 method1 st in
  let st' := run_calls between (snd r1) in
  let r2 := get_s3_session w2 url2 method2 st' in
  client_id (fst r2) <> client_id (fst r1) /\ fst r2 <> fst r1.
Proof.
  intros Hst Hkey. cbv zeta.
  set (r1 := get_s3_session w1 url1 method1 st).
  set (st' := run_calls between (snd r1)).
  set (r2 := get_s3_session w2 url2 method2 st').
  assert (reachable (snd r2)) as Hr.
  { constructor. apply reachable_run. constructor. exact Hst. }
  pose proof (get_s3_session_cached w2 url2 method2 st') as H2. fold r2 in H2.
  pose proof (get_s3_session_cached w1 url1 method1 st) as H1. fold r1 in H1.
  apply (run_calls_keeps between) in H1. fold st' in H1.
  apply (get_s3_session_keeps w2 url2 method2) in H1. fold r2 in H1.
  assert (client_id (fst r2) <> client_id (fst r1)) as Hid.
  { intros Heq. apply Hkey.
    exact (proj2 (reachable_client_ids _ Hr) _ _ _ _ H1 H2 (eq_sym Heq)). }
  split; [exact Hid | congruence].
Qed.

Lemma different_keys_different_clients_witness :
  let w := sample_world [("a", plain_mirror "s3://bucket")] None in
  let r1 := get_s3_session w "s3://bucket/x" "fetch" initial_state in
  let r2 := get_s3_session w "s3://bucket/x" "push" (run_calls [] (snd r1)) in
  client_id (fst r2) <> client_id (fst r1) /\ fst r2 <> fst r1.
Proof.
  apply (different_keys_different_clients
           (sample_world [("a", plain_mirror "s3://bucket")] None)
           (sample_world [("a", plain_mirror "s3://bucket")] None)
           "s3://bucket/x" "s3://bucket/x" "fetch" "push" [] initial_state
           reachable_initial).
  vm_compute. discriminate.
Defined.

(** X11: a newly constructed client keeps the arguments derived for it:
    [use_ssl] is the configured [verify_ssl] and [endpoint_url] is the
    resolved endpoint, with or without the unsigned [config]; it takes
    the next identity and is stored under the key of the call. *)
Theorem new_client_arguments (w : World) (url method : string) (st : State) :
  s3_client_cache st !! cache_key (MirrorCollection w) (geturl w url) method
    = None ->
  let r := get_s3_session w url method st in
  let info := get_mirror_s3_connection_info w
                (snd <$> select_mirror (MirrorCollection w) (geturl w url) method)
                method in
  client_args (fst r) !! "use_ssl" = Some (ArgBool (verify_ssl w)) /\
  client_args (fst r) !! "endpoint_url" = snd info !! "endpoint_url" /\
  dom (client_args (fst r)) ⊆ {["use_ssl"; "endpoint_url"; "config"]} /\
  client_id (fst r) = constructed st /\
  constructed (snd r) = S (constructed st) /\
  size (s3_client_cache (snd r)) = S (size (s3_client_cache st)).
Proof.
  intros Hc. cbv zeta.
  destruct (get_s3_session_miss w url method st Hc) as (Hid & _ & Ha & Hcache & Hn).
  rewrite Ha, Hcache, Hid, Hn.
  pose proof (client_args_dom w
                (snd <$> select_mirror (MirrorCollection w) (geturl w url) method)
                method) as Hdom.
  split; [|split; [|split; [|split; [reflexivity|split; [reflexivity|]]]]].
  - destruct (negb _); [rewrite lookup_insert_ne by congruence|];
      apply client_args_use_ssl.
  - destruct (negb _); [rewrite lookup_insert_ne by congruence|]; reflexivity.
  - destruct (negb _); [rewrite dom_insert_L|]; set_solver.
  - apply map_size_insert_None, Hc.
Qed.

Lemma new_client_arguments_witness :
  client_args
    (fst (get_s3_session
            (sample_world [("a", plain_mirror "s3://bucket")] (Some "minio:9000"))
            "s3://bucket/x" "fetch" initial_state)) !! "use_ssl"
  = Some (ArgBool true).
Proof.
  apply (new_client_arguments
           (sample_world [("a", plain_mirror "s3://bucket")] (Some "minio:9000"))
           "s3://bucket/x" "fetch" initial_state).
  reflexivity.
Defined.

(** X12: a run of calls constructs at most one client per call and never
    forgets one: the construction counter does not decrease and grows by
    at most the number of calls, and a process that starts with the
    empty cache holds at most as many clients as calls were made. *)
Theorem run_calls_constructs_at_most_one_per_call (calls : list Call)
    (st : State) :
  constructed st <= constructed (run_calls calls st) /\
  constructed (run_calls calls st) <= constructed st + length calls /\
  size (s3_client_cache (run_calls calls initial_state)) <= length calls.
Proof.
  assert (forall st, constructed st <= constructed (run_calls calls st) /\
                     constructed (run_calls calls st) <= constructed st + length calls)
    as H.
  { clear st. induction calls as [|c calls IH]; intros st; simpl; [lia|].
    pose proof (get_s3_session_constructed (call_world c) (call_url c)
                  (call_method c) st) as [H1 H2].
    specialize (IH (snd (get_s3_session (call_world c) (call_url c)
                           (call_method c) st))).
    lia. }
  split; [apply H | split; [apply H|]].
  rewrite (reachable_one_client_per_key _ (reachable_run calls _ reachable_initial)).
  exact (proj2 (H initial_state)).
Qed.

(** X13: every client [get_s3_session] returns, new or cached, is an
    [s3] client with [ClientError] attached and [use_ssl] set; its
    arguments have no key beyond [use_ssl], [endpoint_url] and [config],
    and its session parameters are non-empty strings under the four
    credential keys. *)
Theorem returned_client_well_formed (w : World) (url method : string)
    (st : State) :
  reachable st ->
  let client := fst (get_s3_session w url method st) in
  client_service client = "s3" /\
  client_ClientError client = true /\
  (exists b, client_args client !! "use_ssl" = Some (ArgBool b)) /\
  dom (client_args client) ⊆ {["use_ssl"; "endpoint_url"; "config"]} /\
  dom (client_session client)
    ⊆ {["aws_session_token"; "aws_access_key_id";
        "aws_secret_access_key"; "profile_name"]} /\
  map_Forall (fun _ x => x <> "") (client_session client).
Proof.
  intros Hst. cbv zeta.
  apply (reachable_cached_client (snd (get_s3_session w url method st))
           ltac:(constructor; exact Hst)
           (cache_key (MirrorCollection w) (geturl w url) method)).
  apply get_s3_session_cached.
Qed.

Lemma returned_client_well_formed_witness :
  client_service
    (fst (get_s3_session (sample_world [("a", token_pair_mirror)] None)
            "s3://bucket/x" "push" initial_state)) = "s3".
Proof.
  apply (returned_client_well_formed (sample_world [("a", token_pair_mirror)] None)
           "s3://bucket/x" "push" initial_state reachable_initial).
Defined.

(** * The calls and their exceptions *)

Section CallFacts.
Import PyStr.

Lemma urlsplit_head_scheme url scheme :
  fst (urlsplit_head url scheme) = UrlParse.urlparse_scheme url scheme.
Proof.
  unfold urlsplit_head, UrlParse.urlparse_scheme, UrlParse.urlsplit_scheme.
  cbv zeta. destruct (find ":" _) as [i|]; [|reflexivity].
  destruct (_ && _); reflexivity.
Qed.

(** A call of [_parse_s3_endpoint_url] raises when [urlparse] does and
    returns the computed value otherwise. *)
Lemma parse_s3_endpoint_url_call_value lib e :
  _parse_s3_endpoint_url_call lib e
  = if urlsplit_raises lib e then Raises ValueError
    else Returns (_parse_s3_endpoint_url e).
Proof.
  unfold _parse_s3_endpoint_url_call, urlparse_scheme_call.
  destruct (urlsplit_raises lib e); [reflexivity|].
  rewrite urlsplit_head_scheme. unfold _parse_s3_endpoint_url.
  destruct (negb _); reflexivity.
Qed.

Lemma connection_info_call_value lib w mirror method :
  get_mirror_s3_connection_info_call lib w mirror method
  = match resolved_endpoint w mirror method with
    | Some e =>
        if nonempty e && urlsplit_raises lib e then Raises ValueError
        else Returns (get_mirror_s3_connection_info w mirror method)
    | None => Returns (get_mirror_s3_connection_info w mirror method)
    end.
Proof.
  unfold get_mirror_s3_connection_info_call, get_mirror_s3_connection_info,
    resolved_endpoint.
  destruct mirror as [m|]; cbv zeta beta iota;
    match goal with |- context [match ?ep with Some _ => _ | None => _ end] =>
      destruct ep as [e|]; [destruct (nonempty e)|] end;
    simpl; try reflexivity;
    rewrite parse_s3_endpoint_url_call_value;
    destruct (urlsplit_raises lib e); reflexivity.
Qed.

Lemma connection_info_call_returns lib w mirror method r :
  get_mirror_s3_connection_info_call lib w mirror method = Returns r ->
  r = get_mirror_s3_connection_info w mirror method.
Proof.
  rewrite connection_info_call_value.
  destruct (resolved_endpoint w mirror method) as [e|];
    [destruct (_ && _)|]; congruence.
Qed.

(** A call of [get_s3_session], in terms of the value it returns. *)
Lemma get_s3_session_call_value lib w url method st :
  get_s3_session_call lib w url method st
  = if urlsplit_raises lib url then Raises ValueError
    else
      match s3_client_cache st
              !! cache_key (MirrorCollection w) (geturl w url) method with
      | Some client => Returns (client, st)
      | None =>
          match get_mirror_s3_connection_info_call lib w
                  (snd <$> select_mirror (MirrorCollection w) (geturl w url) method)
                  method with
          | Raises e => Raises e
          | Returns _ =>
              let r := get_s3_session w url method st in
              if session_raises lib (client_session (fst r))
              then Raises SdkError
              else if client_raises lib (client_session (fst r))
                        (client_args (fst r))
                   then Raises SdkError
                   else Returns r
          end
      end.
Proof.
  unfold get_s3_session_call, urlparse_scheme_call.
  destruct (urlsplit_raises lib url); [reflexivity|].
  unfold get_s3_session, cache_key. cbv zeta.
  destruct (s3_client_cache st !! _) as [c|]; [reflexivity|].
  destruct (get_mirror_s3_connection_info_call _ _ _ _) as [[conn args]|x] eqn:E;
    [|reflexivity].
  apply connection_info_call_returns in E. rewrite <- E. simpl.
  destruct (session_raises lib conn); [reflexivity|].
  destruct (client_raises lib conn _); reflexivity.
Qed.

(** Whatever a call returns is the value of the call. *)
Lemma get_s3_session_call_returns lib w url method st r :
  get_s3_session_call lib w url method st = Returns r ->
  r = get_s3_session w url method st.
Proof.
  rewrite get_s3_session_call_value.
  destruct (urlsplit_raises lib url); [discriminate|].
  destruct (s3_client_cache st !! _) as [c|] eqn:Hc.
  - intros [= <-]. symmetry. apply get_s3_session_hit, Hc.
  - destruct (get_mirror_s3_connection_info_call _ _ _ _); [|discriminate].
    cbv zeta. destruct (session_raises _ _); [discriminate|].
    destruct (client_raises _ _ _); [discriminate|]. congruence.
Qed.

(** A call that raises leaves the cache as it was, and one that returns
    moves to the state of its value: the states a process goes through
    are reachable. *)
Lemma reachable_after_call lib w url method st client st' :
  reachable st ->
  get_s3_session_call lib w url method st = Returns (client, st') ->
  reachable st'.
Proof.
  intros Hst H. apply get_s3_session_call_returns in H.
  change st' with (snd (client, st')). rewrite H. constructor. exact Hst.
Qed.

(** Characters of the netloc are characters of the url. *)
Lemma forallb_lstrip q p s :
  forallb q (list_ascii_of_string s) = true ->
  forallb q (list_ascii_of_string (lstrip p s)) = true.
Proof.
  induction s as [|a s IH]; simpl; [reflexivity|].
  intros H. apply andb_prop in H as [Ha Hs].
  destruct (p a); [apply IH, Hs | simpl; rewrite Ha, Hs; reflexivity].
Qed.

Lemma forallb_remove q b s :
  forallb q (list_ascii_of_string s) = true ->
  forallb q (list_ascii_of_string (remove b s)) = true.
Proof.
  induction s as [|a s IH]; simpl; [reflexivity|].
  intros H. apply andb_prop in H as [Ha Hs].
  destruct (Ascii.eqb a b); [apply IH, Hs | simpl; rewrite Ha, (IH Hs); reflexivity].
Qed.

Lemma forallb_str_from q i : forall s,
  forallb q (list_ascii_of_string s) = true ->
  forallb q (list_ascii_of_string (str_from i s)) = true.
Proof.
  induction i as [|i IH]; intros s H; destruct s as [|a s]; simpl; try exact H.
  simpl in H. apply andb_prop in H as [_ Hs]. apply IH, Hs.
Qed.

Lemma forallb_substring q : forall s a n,
  forallb q (list_ascii_of_string s) = true ->
  forallb q (list_ascii_of_string (substring a n s)) = true.
Proof.
  induction s as [|c s IH]; intros a n H.
  - destruct a, n; reflexivity.
  - simpl in H. apply andb_prop in H as [Hc Hs].
    destruct a as [|a]; simpl.
    + destruct n as [|n]; simpl; [reflexivity|]. rewrite Hc. apply IH, Hs.
    + apply IH, Hs.
Qed.

Lemma forallb_urlsplit_netloc q url :
  forallb q (list_ascii_of_string url) = true ->
  forallb q (list_ascii_of_string (urlsplit_netloc url)) = true.
Proof.
  intros H. unfold urlsplit_netloc. cbv zeta.
  assert (forallb q (list_ascii_of_string (snd (urlsplit_head url ""))) = true)
    as Hrest.
  { unfold urlsplit_head. cbv zeta.
    assert (forallb q (list_ascii_of_string
              (UrlParse.remove_unsafe (lstrip UrlParse.c0_control_or_space url)))
            = true) as Hu.
    { unfold UrlParse.remove_unsafe. simpl.
      repeat apply forallb_remove. apply forallb_lstrip, H. }
    destruct (find ":" _) as [i|]; [|exact Hu].
    destruct (_ && _); [apply forallb_str_from, Hu | exact Hu]. }
  destruct (String.prefix "//" _); [|reflexivity].
  unfold _splitnetloc, str_slice. cbv zeta. simpl fst.
  apply forallb_substring, Hrest.
Qed.

Lemma char_in_forallb c s :
  char_in c s = false <->
  forallb (fun a => negb (Ascii.eqb c a)) (list_ascii_of_string s) = true.
Proof.
  unfold char_in. induction (list_ascii_of_string s) as [|a l IH]; simpl.
  - split; reflexivity.
  - destruct (Ascii.eqb c a); simpl; [split; discriminate | exact IH].
Qed.

(** [urlsplit] accepts every ASCII string without square brackets. *)
Lemma urlsplit_accepts_plain lib url :
  char_in "[" url = false -> char_in "]" url = false -> str_isascii url = true ->
  urlsplit_raises lib url = false.
Proof.
  intros Ho Hc Ha. unfold urlsplit_raises. cbv zeta.
  apply char_in_forallb in Ho, Hc.
  apply (forallb_urlsplit_netloc _ url) in Ho, Hc.
  apply char_in_forallb in Ho, Hc. rewrite Ho, Hc.
  unfold str_isascii in *. rewrite (forallb_urlsplit_netloc _ url Ha).
  simpl. rewrite andb_false_r. reflexivity.
Qed.




End CallFacts.

(** C5, as the claim words it, fails: ["http://[::1"] has an explicit
    scheme and is not returned unchanged; [urlparse] raises [ValueError]
    on its netloc and the call raises with it. *)
Lemma parse_s3_endpoint_url_call_open_bracket :
  has_explicit_scheme "http://[::1" /\
  _parse_s3_endpoint_url_call permissive_library "http://[::1"
    = Raises ValueError /\
  _parse_s3_endpoint_url_call permissive_library "http://[::1"
    <> Returns "http://[::1".
Proof.
  split; [|split; [reflexivity | discriminate]].
  exists "http", "//[::1". split; [reflexivity | split; reflexivity].
Qed.

(** C5, amended: for every endpoint string that [urlparse] accepts, which
    includes every ASCII string without square brackets, the call returns
    the string unchanged when it has an explicit URI scheme and with
    ["https://"] in front when it has none (["s3.example.com"] becomes
    ["https://s3.example.com"]); on the strings [urlparse] rejects the
    call raises [ValueError]. *)
Theorem parse_s3_endpoint_url_call_by_scheme (lib : Library)
    (endpoint_url : string) :
  (urlsplit_raises lib endpoint_url = false ->
     (has_explicit_scheme endpoint_url ->
        _parse_s3_endpoint_url_call lib endpoint_url = Returns endpoint_url) /\
     (~ has_explicit_scheme endpoint_url ->
        _parse_s3_endpoint_url_call lib endpoint_url
          = Returns ("https://" ++ endpoint_url))) /\
  (urlsplit_raises lib endpoint_url = true ->
     _parse_s3_endpoint_url_call lib endpoint_url = Raises ValueError) /\
  (PyStr.char_in "[" endpoint_url = false ->
   PyStr.char_in "]" endpoint_url = false ->
   str_isascii endpoint_url = true ->
     urlsplit_raises lib endpoint_url = false).
Proof.
  rewrite parse_s3_endpoint_url_call_value.
  split; [|split].
  - intros ->.
    destruct (parse_s3_endpoint_url_by_scheme endpoint_url) as [H1 H2].
    split; intros H; f_equal; auto.
  - intros ->. reflexivity.
  - apply urlsplit_accepts_plain.
Qed.

Lemma parse_s3_endpoint_url_call_by_scheme_witness :
  _parse_s3_endpoint_url_call permissive_library "http://s3.example.com"
    = Returns "http://s3.example.com" /\
  _parse_s3_endpoint_url_call permissive_library "s3.example.com"
    = Returns ("https://" ++ "s3.example.com").
Proof.
  split.
  - apply (proj1 (parse_s3_endpoint_url_call_by_scheme permissive_library
                    "http://s3.example.com")); [reflexivity|].
    exists "http", "//s3.example.com". repeat split; reflexivity.
  - apply (proj1 (parse_s3_endpoint_url_call_by_scheme permissive_library
                    "s3.example.com")); [reflexivity|].
    intros H. apply urlparse_scheme_detects in H. discriminate H.
Defined.




(** X1: whenever a call of [_parse_s3_endpoint_url] returns, the result
    carries a scheme, the one of the input when it has one and [https]
    otherwise; a second call on the result returns it unchanged, unless
    [urlparse] rejects the result with its new [https] scheme, and then
    it raises [ValueError]. *)
Theorem parse_s3_endpoint_url_call_idempotent (lib : Library)
    (endpoint_url result : string) :
  _parse_s3_endpoint_url_call lib endpoint_url = Returns result ->
  has_explicit_scheme result /\
  UrlParse.urlparse_scheme result ""
    = (if PyStr.nonempty (UrlParse.urlparse_scheme endpoint_url "")
       then UrlParse.urlparse_scheme endpoint_url "" else "https") /\
  (_parse_s3_endpoint_url_call lib result = Returns result \/
   _parse_s3_endpoint_url_call lib result = Raises ValueError) /\
  (urlsplit_raises lib result = false ->
     _parse_s3_endpoint_url_call lib result = Returns result) /\
  (has_explicit_scheme endpoint_url ->
     _parse_s3_endpoint_url_call lib result = Returns result).
Proof.
  rewrite parse_s3_endpoint_url_call_value.
  destruct (urlsplit_raises lib endpoint_url) eqn:Hr; [discriminate|].
  intros [= <-].
  destruct (parse_s3_endpoint_url_idempotent endpoint_url) as (Hi & Hs & Hsch).
  split; [exact Hs|]. split; [exact Hsch|].
  rewrite parse_s3_endpoint_url_call_value, Hi.
  split; [|split].
  - destruct (urlsplit_raises lib (_parse_s3_endpoint_url endpoint_url));
      [right | left]; reflexivity.
  - intros ->. reflexivity.
  - intros He.
    rewrite (proj1 (parse_s3_endpoint_url_by_scheme endpoint_url) He), Hr.
    reflexivity.
Qed.

Lemma parse_s3_endpoint_url_call_idempotent_witness :
  has_explicit_scheme "https://s3.example.com" /\
  _parse_s3_endpoint_url_call permissive_library "https://s3.example.com"
    = Returns "https://s3.example.com".
Proof.
  destruct (parse_s3_endpoint_url_call_idempotent permissive_library
              "s3.example.com" "https://s3.example.com" eq_refl)
    as (Hs & _ & _ & Hret & _).
  split; [exact Hs | apply Hret; reflexivity].
Defined.



